(** * Real-time funding-rate monitor ([real_time_monitor.py], [config.py])

    A shallow embedding of the ingestion pipeline: the [FundingUpdate]
    dataclass, the five exchange parsers, the significance filter
    [should_process_update], the dispatch queue, the periodic sweep and the
    reconnection loop of [monitor_exchange].

    Conventions.
    - A Python [float] is a binary64 value: Rocq's primitive [float], whose
      operations are the IEEE 754 ones Python uses.  Literals are read to
      the nearest binary64 value, as Python reads them.
    - A [datetime] is the number of microseconds since the epoch (its
      resolution), a [timedelta] a difference of such numbers.
    - A Python [str] is a [string], one [ascii] per character.
    - Objects are mutable and shared: a [FundingUpdate] object lives in a
      heap and is named by its location; the filter table and the queue hold
      locations, not copies.
    - What the environment decides is an argument: the decoded message,
      the readings of the clock, the outcome of each connection attempt,
      and the built-in [float] on text. *)

From Stdlib Require Import ZArith String Ascii List Bool Floats Lia.
From stdpp Require Import gmap strings list fin_maps.

Set Warnings "-inexact-float,-register-all,-clear-no-such-hyp".

Local Open Scope string_scope.

(** ** Python built-ins used by the monitor *)

Module Py.

(** The exceptions the monitored code can raise. *)
Inductive exception :=
| AttributeError
| TypeError
| ValueError (msg : string)
| OverflowError.

Inductive result (A : Type) :=
| Ok (a : A)
| Raised (e : exception).
Arguments Ok {A} a.
Arguments Raised {A} e.

(** [s.replace(old, '')]: every non-overlapping occurrence of [old],
    scanning from the left, is removed.  [skip] counts the characters of
    an occurrence that remain to be dropped. *)
Fixpoint remove_from (old : string) (skip : nat) (s : string) : string :=
  match s with
  | EmptyString => EmptyString
  | String c s' =>
      match skip with
      | S k => remove_from old k s'
      | O =>
          if String.prefix old s
          then remove_from old (String.length old - 1) s'
          else String c (remove_from old 0 s')
      end
  end.

Definition str_remove (s old : string) : string :=
  match old with
  | EmptyString => s
  | _ => remove_from old 0 s
  end.

(** [float(n)] for a Python [int]: the nearest binary64 value (ties to
    even), [OverflowError] when that is out of range. *)
Definition float_of_int (n : Z) : result float :=
  let f := SF2Prim (binary_normalize prec emax n 0 false) in
  if is_infinity f then Raised OverflowError else Ok f.

(** [x != 0] and [x == 0] on a float. *)
Definition float_nonzero (x : float) : bool := negb (x =? 0)%float.

End Py.

(** ** Decoded JSON values

    What [json.loads] returns: [None], [bool], [int], [float] (the decoder
    also accepts the literals [NaN] and [Infinity]), [str], [list], [dict].
    A [dict] is kept as the list of members in document order; a later
    member with the same name overrides an earlier one. *)

Module Json.

Inductive value :=
| JNull
| JBool (b : bool)
| JInt (n : Z)
| JFloat (x : float)
| JStr (s : string)
| JList (items : list value)
| JDict (members : list (string * value)).

(** [d.get(key)], [None] when the key is absent. *)
Fixpoint dict_get (key : string) (members : list (string * value)) : option value :=
  match members with
  | [] => None
  | (k, v) :: rest =>
      match dict_get key rest with
      | Some v' => Some v'
      | None => if String.eqb k key then Some v else None
      end
  end.

End Json.
Import Json.

(** ** Configuration ([config.py]) *)

Record BotConfig := {
  min_apr_threshold : float;
  alert_apr_threshold : float;
}.

Definition bot_config : BotConfig :=
  {| min_apr_threshold := 50; alert_apr_threshold := 100 |}.

Record WebSocketConfig := {
  max_reconnects : nat;
  reconnect_interval : nat;
}.

Definition websocket_config : WebSocketConfig :=
  {| max_reconnects := 10; reconnect_interval := 5 |}.

Definition TOP_50_COINS : list string :=
  [ "BTC"; "ETH"; "USDT"; "XRP"; "BNB"; "SOL"; "USDC"; "TRX";
    "DOGE"; "ADA"; "WBTC"; "SUI"; "LINK"; "BCH"; "LEO"; "XLM";
    "AVAX"; "TON"; "WBT"; "SHIB"; "HBAR"; "LTC"; "XMR"; "DOT";
    "DAI"; "BGB"; "UNI"; "PEPE"; "AAVE"; "APT"; "TAO"; "OKB";
    "NEAR"; "ICP"; "CRO"; "ETC"; "ONDO"; "MNT"; "TKX"; "GT";
    "KAS"; "FTN"; "POL"; "VET"; "TRUMP"; "RENDER"; "SEI"; "ENA"; "FET" ].

Definition in_TOP_50_COINS (symbol : string) : bool :=
  existsb (String.eqb symbol) TOP_50_COINS.

(** ** The canonical event *)

Record FundingUpdate := {
  symbol : string;
  funding_rate : float;
  apr : float;
  exchange : string;
  timestamp : Z;
  change_percent : float;
}.

Definition set_change_percent (c : float) (u : FundingUpdate) : FundingUpdate :=
  {| symbol := symbol u; funding_rate := funding_rate u; apr := apr u;
     exchange := exchange u; timestamp := timestamp u; change_percent := c |}.

(** [FundingUpdate(symbol, funding_rate, apr, exchange, timestamp)]: the
    generated constructor, which leaves [change_percent] at its default,
    followed by [__post_init__].  The messages of the two [ValueError]s are
    given in English. *)
Definition __post_init__ (symbol : string) (funding_rate apr : float)
    (exchange : string) (timestamp : Z) : Py.result FundingUpdate :=
  if (String.length symbol <? 2)%nat then
    Py.Raised (Py.ValueError "bad symbol")
  else if (50 <? abs funding_rate)%float then
    Py.Raised (Py.ValueError "suspiciously high funding rate")
  else
    Py.Ok {| symbol := symbol;
             funding_rate := funding_rate;
             apr := if (apr =? 0)%float
                    then (abs funding_rate * 3 * 365)%float
                    else apr;
             exchange := exchange;
             timestamp := timestamp;
             change_percent := 0 |}.

(** A reading of [float] on text under which no text is a number.  The
    worked examples carry their rates as JSON numbers, so [float] is never
    applied to text in them and any reading gives the same result. *)
Definition no_text_rates : string -> option float := fun _ => None.

(** ** Source parsers *)

Section Pipeline.

(** [float(s)] for a [str]: Python's own parser of decimal text, [None]
    when it raises [ValueError]. *)
Variable float_of_str : string -> option float.

(** The built-in [float] applied to a decoded JSON value. *)
Definition py_float (v : value) : Py.result float :=
  match v with
  | JFloat x => Py.Ok x
  | JInt n => Py.float_of_int n
  | JBool b => Py.Ok (if b then 1%float else 0%float)
  | JStr s =>
      match float_of_str s with
      | Some x => Py.Ok x
      | None => Py.Raised (Py.ValueError "could not convert string to float")
      end
  | JNull | JList _ | JDict _ => Py.Raised Py.TypeError
  end.

(** What one turn of a parser's [for] loop does. *)
Inductive turn :=
| Skip                          (* [continue], or the rate is zero *)
| Append (update : FundingUpdate)
| Abort (e : Py.exception).     (* an exception leaves the loop *)

(** The body of the loop, shared by the five parsers up to the names of
    the two fields, the two suffixes removed from the instrument name and
    the exchange label.  [now] is what [datetime.now] returns if it is
    called. *)
Definition parse_item (symbol_field old1 old2 rate_field exchange : string)
    (now : Z) (item : value) : turn :=
  match item with
  | JDict members =>
      match default (JStr EmptyString) (dict_get symbol_field members) with
      | JStr s =>
          let symbol := Py.str_remove (Py.str_remove s old1) old2 in
          if in_TOP_50_COINS symbol then Skip
          else
            match py_float (default (JInt 0) (dict_get rate_field members)) with
            | Py.Raised e => Abort e
            | Py.Ok funding_rate =>
                if Py.float_nonzero funding_rate then
                  match __post_init__ symbol (funding_rate * 100)%float 0%float
                          exchange now with
                  | Py.Ok update => Append update
                  | Py.Raised e => Abort e
                  end
                else Skip
            end
      | _ => Abort Py.AttributeError
      end
  | _ => Abort Py.AttributeError
  end.

(** The loop inside [try]: [updates] as it stands when the function
    returns.  [clock k] is the result of the [k]-th call of
    [datetime.now] made by this invocation; the call is made once per
    constructed update. *)
Fixpoint parse_items (body : Z -> value -> turn) (clock : nat -> Z)
    (k : nat) (items : list value) : list FundingUpdate :=
  match items with
  | [] => []
  | item :: rest =>
      match body (clock k) item with
      | Skip => parse_items body clock k rest
      | Append update => update :: parse_items body clock (S k) rest
      | Abort _ => []
      end
  end.

(** [if name in data and isinstance(data[name], list)]: the entries to
    loop over.  On anything but a [dict] the test is false or raises
    inside [try]; either way no entry is visited. *)
Definition envelope (name : string) (data : value) : list value :=
  match data with
  | JDict members =>
      match dict_get name members with
      | Some (JList items) => items
      | _ => []
      end
  | _ => []
  end.

Definition binance_item := parse_item "s" "USDT" "USD" "r" "Binance".
Definition bybit_item := parse_item "symbol" "USDT" "USD" "fundingRate" "Bybit".
Definition okx_item := parse_item "instId" "-USDT-SWAP" "-USD-SWAP" "fundingRate" "OKX".
Definition gateio_item := parse_item "contract" "_USDT" "_USD" "funding_rate" "Gate.io".
Definition bitget_item := parse_item "instId" "USDT" "USD" "fundingRate" "Bitget".

Definition parse_binance_data (clock : nat -> Z) (data : value) : list FundingUpdate :=
  match data with
  | JList items => parse_items binance_item clock 0 items
  | _ => []
  end.

Definition parse_bybit_data (clock : nat -> Z) (data : value) : list FundingUpdate :=
  parse_items bybit_item clock 0 (envelope "data" data).

Definition parse_okx_data (clock : nat -> Z) (data : value) : list FundingUpdate :=
  parse_items okx_item clock 0 (envelope "data" data).

Definition parse_gateio_data (clock : nat -> Z) (data : value) : list FundingUpdate :=
  parse_items gateio_item clock 0 (envelope "result" data).

Definition parse_bitget_data (clock : nat -> Z) (data : value) : list FundingUpdate :=
  parse_items bitget_item clock 0 (envelope "data" data).


(** ** The monitor object

    [heap] holds every [FundingUpdate] object created so far; a location is
    an index into it.  [last_funding_data] is the filter table, keyed by
    the text [symbol_exchange]; [update_queue] is the [queue.Queue], oldest
    first; [connections] keeps the keys of the dict of open sockets. *)

Abbreviation loc := nat (only parsing).

Record RealTimeMonitor := {
  heap : list FundingUpdate;
  connections : gset string;
  is_running : bool;
  last_funding_data : gmap string loc;
  update_queue : list loc;
  total_updates : nat;
  alerts_sent : nat;
  connections_lost : nat;
}.

(** [RealTimeMonitor.__init__]: [queue.Queue()] is built without a
    [maxsize]. *)
Definition __init__ : RealTimeMonitor :=
  {| heap := []; connections := ∅; is_running := false;
     last_funding_data := ∅; update_queue := [];
     total_updates := 0; alerts_sent := 0; connections_lost := 0 |}.

Definition with_heap (h : list FundingUpdate) (self : RealTimeMonitor) :=
  {| heap := h; connections := connections self; is_running := is_running self;
     last_funding_data := last_funding_data self;
     update_queue := update_queue self; total_updates := total_updates self;
     alerts_sent := alerts_sent self; connections_lost := connections_lost self |}.

Definition with_last_funding_data (t : gmap string loc) (self : RealTimeMonitor) :=
  {| heap := heap self; connections := connections self;
     is_running := is_running self; last_funding_data := t;
     update_queue := update_queue self; total_updates := total_updates self;
     alerts_sent := alerts_sent self; connections_lost := connections_lost self |}.

Definition with_connections (c : gset string) (self : RealTimeMonitor) :=
  {| heap := heap self; connections := c; is_running := is_running self;
     last_funding_data := last_funding_data self;
     update_queue := update_queue self; total_updates := total_updates self;
     alerts_sent := alerts_sent self; connections_lost := connections_lost self |}.

Definition with_update_queue (q : list loc) (self : RealTimeMonitor) :=
  {| heap := heap self; connections := connections self;
     is_running := is_running self;
     last_funding_data := last_funding_data self;
     update_queue := q; total_updates := total_updates self;
     alerts_sent := alerts_sent self; connections_lost := connections_lost self |}.

(** [f"{update.symbol}_{update.exchange}"] *)
Definition key_of (update : FundingUpdate) : string :=
  symbol update ++ "_" ++ exchange update.

(** One minute and one hour, in microseconds. *)
Definition minute : Z := 60000000.
Definition hour : Z := 3600000000.

(** [change] and [change_percent] of lines 404-405. *)
Definition change_of (update last_update : FundingUpdate) : float :=
  let change := abs (funding_rate update - funding_rate last_update)%float in
  if Py.float_nonzero (funding_rate last_update)
  then (change / abs (funding_rate last_update) * 100)%float
  else 0%float.

(** [should_process_update]: the verdict and the monitor afterwards.
    [time_diff.total_seconds() < 60] compares a whole number of
    microseconds, divided by [10**6] with one rounding, to [60.0]; that is
    the comparison of the microseconds with [minute].  The [except] branch
    stands for a dangling location, which no caller produces. *)
Definition should_process_update (update : loc) (self : RealTimeMonitor)
    : bool * RealTimeMonitor :=
  match heap self !! update with
  | None => (false, self)
  | Some u =>
      if (apr u <? min_apr_threshold bot_config)%float then (false, self)
      else
        let key := key_of u in
        match last_funding_data self !! key with
        | Some last =>
            match heap self !! last with
            | None => (false, self)
            | Some last_update =>
                if (timestamp u - timestamp last_update <? minute)%Z
                then (false, self)
                else
                  let change_percent := change_of u last_update in
                  let self1 :=
                    with_heap
                      (<[update := set_change_percent change_percent u]> (heap self))
                      self in
                  if (change_percent <? 10)%float then (false, self1)
                  else
                    (true,
                     with_last_funding_data
                       (<[key := update]> (last_funding_data self1)) self1)
            end
        | None =>
            (true,
             with_last_funding_data
               (<[key := update]> (last_funding_data self)) self)
        end
  end.

(** [self.update_queue.put(update)] followed by the statistics line: the
    queue has no capacity, so [put] returns at once and appends. *)
Definition put (update : loc) (self : RealTimeMonitor) : RealTimeMonitor :=
  {| heap := heap self; connections := connections self;
     is_running := is_running self;
     last_funding_data := last_funding_data self;
     update_queue := update_queue self ++ [update];
     total_updates := S (total_updates self);
     alerts_sent := alerts_sent self; connections_lost := connections_lost self |}.

(** The parser chosen by the exchange name. *)
Definition funding_updates (exchange : string) (clock : nat -> Z)
    (data : value) : list FundingUpdate :=
  if String.eqb exchange "binance" then parse_binance_data clock data
  else if String.eqb exchange "bybit" then parse_bybit_data clock data
  else if String.eqb exchange "okx" then parse_okx_data clock data
  else if String.eqb exchange "gateio" then parse_gateio_data clock data
  else if String.eqb exchange "bitget" then parse_bitget_data clock data
  else [].

(** The loop [for update in funding_updates]. *)
Fixpoint enqueue_updates (updates : list loc) (self : RealTimeMonitor)
    : RealTimeMonitor :=
  match updates with
  | [] => self
  | update :: rest =>
      let '(ok, self1) := should_process_update update self in
      enqueue_updates rest (if ok then put update self1 else self1)
  end.

(** [process_websocket_message].  [message] is what [json.loads] made of
    the text, [None] when it raised [JSONDecodeError].  The parser has
    created its objects, in order, before the filter sees the first. *)
Definition process_websocket_message (message : option value)
    (exchange : string) (clock : nat -> Z) (self : RealTimeMonitor)
    : RealTimeMonitor :=
  match message with
  | None => self
  | Some data =>
      let created := funding_updates exchange clock data in
      let first := length (heap self) in
      enqueue_updates (seq first (length created))
        (with_heap (heap self ++ created) self)
  end.

(** One turn of [process_updates]: at most ten [get_nowait] calls. *)
Definition process_updates_turn (self : RealTimeMonitor)
    : list loc * RealTimeMonitor :=
  (take 10 (update_queue self),
   with_update_queue (drop 10 (update_queue self)) self).

(** One turn of [periodic_cleanup] at time [now]: the keys whose update is
    older than the cutoff are collected, then deleted. *)
Definition is_old (h : list FundingUpdate) (cutoff_time : Z)
    (entry : string * loc) : bool :=
  match h !! entry.2 with
  | Some update => (timestamp update <? cutoff_time)%Z
  | None => false
  end.

Definition keys_to_remove (now : Z) (self : RealTimeMonitor) : list string :=
  let cutoff_time := (now - hour)%Z in
  (filter (fun entry => Is_true (is_old (heap self) cutoff_time entry))
          (map_to_list (last_funding_data self))).*1.

Definition periodic_cleanup_turn (now : Z) (self : RealTimeMonitor)
    : RealTimeMonitor :=
  with_last_funding_data
    (foldr delete (last_funding_data self) (keys_to_remove now self)) self.

(** [start_monitoring] sets the flag before it creates the tasks. *)
Definition start_monitoring (self : RealTimeMonitor) : RealTimeMonitor :=
  {| heap := heap self; connections := connections self; is_running := true;
     last_funding_data := last_funding_data self;
     update_queue := update_queue self; total_updates := total_updates self;
     alerts_sent := alerts_sent self; connections_lost := connections_lost self |}.

(** [stop_monitoring] *)
Definition stop_monitoring (self : RealTimeMonitor) : RealTimeMonitor :=
  {| heap := heap self; connections := ∅; is_running := false;
     last_funding_data := last_funding_data self;
     update_queue := update_queue self; total_updates := total_updates self;
     alerts_sent := alerts_sent self; connections_lost := connections_lost self |}.

(** ** The connection supervisor

    What the environment does to one run of [monitor_exchange], in the
    order the loop meets it. *)
Inductive happening :=
| ConnectRaises (closed : bool)
    (* [websockets.connect] raises: [ConnectionClosed] when [closed],
       another [Exception] otherwise *)
| Stream (messages : list (option value * (nat -> Z))) (ending : option bool)
    (* the socket opens and delivers [messages]; then the iteration ends
       ([None]) or raises ([Some closed], as above) *)
| StopRequested.
    (* another task runs [stop_monitoring] *)

(** How far a run has come when the script is used up. *)
Inductive run :=
| Returned (failed : bool) (attempts : nat) (self : RealTimeMonitor)
    (* the function returned after [attempts] calls of [connect];
       [failed]: it logged that the reconnection limit was exceeded *)
| Waiting (reconnect_count attempts : nat) (self : RealTimeMonitor).
    (* the loop is about to connect again *)

Definition lose_connection (closed : bool) (self : RealTimeMonitor)
    : RealTimeMonitor :=
  if closed then
    {| heap := heap self; connections := connections self;
       is_running := is_running self;
       last_funding_data := last_funding_data self;
       update_queue := update_queue self; total_updates := total_updates self;
       alerts_sent := alerts_sent self;
       connections_lost := S (connections_lost self) |}
  else self.

Definition receive (exchange : string)
    (messages : list (option value * (nat -> Z))) (self : RealTimeMonitor)
    : RealTimeMonitor :=
  fold_left
    (fun s m => process_websocket_message m.1 exchange m.2 s) messages self.

Fixpoint monitor_loop (exchange : string) (script : list happening)
    (reconnect_count attempts : nat) (self : RealTimeMonitor) : run :=
  if is_running self && (reconnect_count <? max_reconnects websocket_config)%nat
  then
    match script with
    | [] => Waiting reconnect_count attempts self
    | ConnectRaises closed :: rest =>
        monitor_loop exchange rest (S reconnect_count) (S attempts)
          (lose_connection closed self)
    | Stream messages ending :: rest =>
        let self1 := with_connections ({[exchange]} ∪ connections self) self in
        let self2 := receive exchange messages self1 in
        match ending with
        | None => monitor_loop exchange rest 0 (S attempts) self2
        | Some closed =>
            monitor_loop exchange rest 1 (S attempts)
              (lose_connection closed self2)
        end
    | StopRequested :: rest =>
        monitor_loop exchange rest reconnect_count attempts
          (stop_monitoring self)
    end
  else
    Returned (max_reconnects websocket_config <=? reconnect_count)%nat attempts
      (with_connections (connections self ∖ {[exchange]}) self).

Definition monitor_exchange (exchange : string) (script : list happening)
    (self : RealTimeMonitor) : run :=
  monitor_loop exchange script 0 0 self.

(** ** Reachable monitor states

    After [start_monitoring] the ingestion tasks, the consumer task and the
    sweep task interleave at their suspension points; between two of them
    one of these runs to completion. *)
Inductive step : RealTimeMonitor -> RealTimeMonitor -> Prop :=
| step_message message exchange clock self :
    step self (process_websocket_message message exchange clock self)
| step_consume self :
    step self (process_updates_turn self).2
| step_cleanup now self :
    step self (periodic_cleanup_turn now self).

Definition reachable : RealTimeMonitor -> Prop :=
  rtc step (start_monitoring __init__).

(** ** Notions used in the statements *)

(** The rate value a parser extracts from an entry:
    [float(item.get(rate_field, 0))]. *)
Definition extracted_rate (rate_field : string) (item : value) : Py.result float :=
  match item with
  | JDict members => py_float (default (JInt 0) (dict_get rate_field members))
  | _ => Py.Raised Py.AttributeError
  end.

(** The range check of [__post_init__] does not fire on the update:
    [abs(rate) > 50] is false. *)
Definition within_range (u : FundingUpdate) : Prop :=
  (50 <? abs (funding_rate u))%float = false.

(** The same update read at another time, and a list of updates read at
    the successive times of a clock. *)
Definition at_time (now : Z) (u : FundingUpdate) : FundingUpdate :=
  {| symbol := symbol u; funding_rate := funding_rate u; apr := apr u;
     exchange := exchange u; timestamp := now;
     change_percent := change_percent u |}.

Fixpoint stamp (clock : nat -> Z) (k : nat) (updates : list FundingUpdate)
    : list FundingUpdate :=
  match updates with
  | [] => []
  | u :: rest => at_time (clock k) u :: stamp clock (S k) rest
  end.

(** ** Wire formats

    What tells the five sources apart: where the entries are (the payload
    itself for Binance, a member of the payload for the others), the
    members of an entry that hold the instrument name and the rate, and
    the two suffixes removed from the name. *)
Record wire_format := {
  entries_member : option string;
  symbol_member : string;
  suffix1 : string;
  suffix2 : string;
  rate_member : string;
}.

Definition wire_format_of (exchange : string) : option wire_format :=
  if String.eqb exchange "binance" then
    Some {| entries_member := None; symbol_member := "s";
            suffix1 := "USDT"; suffix2 := "USD"; rate_member := "r" |}
  else if String.eqb exchange "bybit" then
    Some {| entries_member := Some "data"; symbol_member := "symbol";
            suffix1 := "USDT"; suffix2 := "USD";
            rate_member := "fundingRate" |}
  else if String.eqb exchange "okx" then
    Some {| entries_member := Some "data"; symbol_member := "instId";
            suffix1 := "-USDT-SWAP"; suffix2 := "-USD-SWAP";
            rate_member := "fundingRate" |}
  else if String.eqb exchange "gateio" then
    Some {| entries_member := Some "result"; symbol_member := "contract";
            suffix1 := "_USDT"; suffix2 := "_USD";
            rate_member := "funding_rate" |}
  else if String.eqb exchange "bitget" then
    Some {| entries_member := Some "data"; symbol_member := "instId";
            suffix1 := "USDT"; suffix2 := "USD";
            rate_member := "fundingRate" |}
  else None.

(** The payload [data] of [exchange] has the right envelope and carries
    the entries [items]. *)
Definition carries (exchange : string) (data : value) (items : list value)
    : Prop :=
  match wire_format_of exchange with
  | None => False
  | Some fmt =>
      match entries_member fmt with
      | None => data = JList items
      | Some name =>
          ∃ members, data = JDict members /\
                     dict_get name members = Some (JList items)
      end
  end.

(** The instrument name of an entry whose symbol member holds [s]. *)
Definition instrument (fmt : wire_format) (s : string) : string :=
  Py.str_remove (Py.str_remove s (suffix1 fmt)) (suffix2 fmt).

(** The values [float] refuses: [None], a list, an object, text that is
    not a number, an integer beyond the range of binary64. *)
Definition unconvertible (v : value) : Prop :=
  match v with
  | JNull | JList _ | JDict _ => True
  | JStr s => float_of_str s = None
  | JInt n => Py.float_of_int n = Py.Raised Py.OverflowError
  | JFloat _ | JBool _ => False
  end.

(** The entries on which the loop of a parser raises.  The last three
    concern an entry whose symbol member is text or absent and whose
    instrument is not excluded; the last two need a rate that is not
    zero, since a zero rate is dropped before the constructor runs. *)
Inductive raising_entry (fmt : wire_format) : value -> Prop :=
| entry_not_an_object item :
    (∀ members, item ≠ JDict members) ->
    raising_entry fmt item
| symbol_not_text members v :
    dict_get (symbol_member fmt) members = Some v ->
    (∀ s, v ≠ JStr s) ->
    raising_entry fmt (JDict members)
| rate_not_a_number members s :
    default (JStr EmptyString) (dict_get (symbol_member fmt) members)
      = JStr s ->
    in_TOP_50_COINS (instrument fmt s) = false ->
    unconvertible (default (JInt 0) (dict_get (rate_member fmt) members)) ->
    raising_entry fmt (JDict members)
| symbol_too_short members s x :
    default (JStr EmptyString) (dict_get (symbol_member fmt) members)
      = JStr s ->
    in_TOP_50_COINS (instrument fmt s) = false ->
    extracted_rate (rate_member fmt) (JDict members) = Py.Ok x ->
    Py.float_nonzero x = true ->
    String.length (instrument fmt s) < 2 ->
    raising_entry fmt (JDict members)
| rate_out_of_range members s x :
    default (JStr EmptyString) (dict_get (symbol_member fmt) members)
      = JStr s ->
    in_TOP_50_COINS (instrument fmt s) = false ->
    extracted_rate (rate_member fmt) (JDict members) = Py.Ok x ->
    Py.float_nonzero x = true ->
    (50 <? abs (x * 100))%float = true ->
    raising_entry fmt (JDict members).

(** ** The specification's wording

    Used only to show where the code departs from it. *)

(** The scale heuristic of the specification: a value under 1 in
    magnitude is a fraction and is multiplied by 100, any other value is
    kept. *)
Definition spec_scale (x : float) : float :=
  if (abs x <? 1)%float then (x * 100)%float else x.

(** A payload the parser cannot interpret: one of its entries raises. *)
Definition uninterpretable (body : Z -> value -> turn) (items : list value) : Prop :=
  ∃ item e, item ∈ items ∧ ∀ now, body now item = Abort e.

(** ** Sample inputs

    A Binance ticker entry [{"s": s, "r": r}] with a numeric rate, and a
    one-entry payload. *)
Definition ticker (s : string) (r : float) : value :=
  JDict [("s", JStr s); ("r", JFloat r)].

Definition payload_a : value := JList [ticker "XYZUSDT" 0.001].

(** The update a parser builds for that instrument from a percentage
    [rate] at time [now]. *)
Definition sample_update (rate : float) (now : Z) : FundingUpdate :=
  {| symbol := "XYZ"; funding_rate := rate;
     apr := (abs rate * 3 * 365)%float; exchange := "Binance";
     timestamp := now; change_percent := 0 |}.

(** A monitor holding one accepted update and one newer, unfiltered update
    for the same key. *)
Definition sample_monitor (later : Z) : RealTimeMonitor :=
  {| heap := [sample_update 0.1 0; sample_update 0.2 later];
     connections := ∅; is_running := true;
     last_funding_data := {[ "XYZ_Binance" := 0 ]};
     update_queue := [0]; total_updates := 1; alerts_sent := 0;
     connections_lost := 0 |}.

(** A payload of [n] tickers for instruments never seen before: their
    names are runs of seven and more letters A. *)
Fixpoint many_A (n : nat) : string :=
  match n with
  | O => EmptyString
  | S k => String "A" (many_A k)
  end.

Definition burst_symbol (k : nat) : string := many_A (k + 7).

Definition burst_update (now : Z) (k : nat) : FundingUpdate :=
  {| symbol := burst_symbol k; funding_rate := (0.001 * 100)%float;
     apr := (abs (0.001 * 100) * 3 * 365)%float; exchange := "Binance";
     timestamp := now; change_percent := 0 |}.

Definition burst (n : nat) : value :=
  JList ((fun k => ticker (burst_symbol k) 0.001) <$> seq 0 n).

(** ** The rest of the monitor *)

(** [parsing_config.websocket_sources]: one supervisor is started for each
    entry. *)
Definition websocket_sources : list (string * string) :=
  [ ("binance", "wss://fstream.binance.com/ws/!ticker@arr");
    ("bybit", "wss://stream.bybit.com/v5/public/linear");
    ("okx", "wss://ws.okx.com:8443/ws/v5/public");
    ("gateio", "wss://api.gateio.ws/ws/v4/");
    ("bitget", "wss://ws.bitget.com/mix/v1/stream") ].

(** [subscribe_funding_rates]: the message handed to [json.dumps] and
    sent, [None] for an exchange it does not know (a warning is logged and
    nothing is sent). *)
Definition subscribe_funding_rates (exchange : string) : option value :=
  if String.eqb exchange "binance" then
    Some (JDict [("method", JStr "SUBSCRIBE");
                 ("params", JList [JStr "!ticker@arr"]);
                 ("id", JInt 1)])
  else if String.eqb exchange "bybit" then
    Some (JDict [("op", JStr "subscribe");
                 ("args", JList [JStr "tickers.linear"])])
  else if String.eqb exchange "okx" then
    Some (JDict [("op", JStr "subscribe");
                 ("args", JList [JDict [("channel", JStr "funding-rate");
                                        ("instType", JStr "SWAP")]])])
  else if String.eqb exchange "gateio" then
    Some (JDict [("method", JStr "futures.funding_rate");
                 ("params", JList []);
                 ("id", JInt 1)])
  else if String.eqb exchange "bitget" then
    Some (JDict [("op", JStr "subscribe");
                 ("args", JList [JDict [("instType", JStr "mc");
                                        ("channel", JStr "funding-rate");
                                        ("instId", JStr "default")]])])
  else None.

(** The [exchange] field the parser of a source writes into its updates. *)
Definition exchange_label (exchange : string) : string :=
  if String.eqb exchange "binance" then "Binance"
  else if String.eqb exchange "bybit" then "Bybit"
  else if String.eqb exchange "okx" then "OKX"
  else if String.eqb exchange "gateio" then "Gate.io"
  else if String.eqb exchange "bitget" then "Bitget"
  else EmptyString.

(** What a parser guarantees of an update it returns. *)
Definition well_built (u : FundingUpdate) : Prop :=
  in_TOP_50_COINS (symbol u) = false /\
  (2 <= String.length (symbol u))%nat /\
  apr u = (abs (funding_rate u) * 3 * 365)%float /\
  change_percent u = 0%float.

(** The happenings of a script that count towards the reconnection limit:
    a connect that raises, and a stream that ends by raising. *)
Definition is_failure (h : happening) : bool :=
  match h with
  | ConnectRaises _ => true
  | Stream _ (Some _) => true
  | Stream _ None => false
  | StopRequested => false
  end.

Definition failures (script : list happening) : nat :=
  length (List.filter is_failure script).


(** [n] turns of the loop of [process_updates], with no ingestion in
    between: the batches taken, oldest first, and the monitor left. *)
Fixpoint process_updates_turns (n : nat) (self : RealTimeMonitor)
    : list (list loc) * RealTimeMonitor :=
  match n with
  | O => ([], self)
  | S k =>
      let '(batch, self1) := process_updates_turn self in
      let '(batches, self2) := process_updates_turns k self1 in
      (batch :: batches, self2)
  end.

(** What the code relies on when it reads the filter table and the
    queue: every location stored is a live update, filed under its own
    key, whose annualized rate was not under the floor. *)
Definition table_sound (self : RealTimeMonitor) : Prop :=
  ∀ key l, last_funding_data self !! key = Some l ->
    ∃ u, heap self !! l = Some u /\ key_of u = key /\
         (apr u <? min_apr_threshold bot_config)%float = false.

Definition queue_sound (self : RealTimeMonitor) : Prop :=
  ∀ l, l ∈ update_queue self ->
    ∃ u, heap self !! l = Some u /\
         (apr u <? min_apr_threshold bot_config)%float = false.

(** ** Alerts *)

(** [self.update_callback], and what awaiting it does when it is set. *)
Inductive update_callback := NoCallback | CallbackReturns | CallbackRaises.

Definition with_alerts_sent (n : nat) (self : RealTimeMonitor) :=
  {| heap := heap self; connections := connections self;
     is_running := is_running self;
     last_funding_data := last_funding_data self;
     update_queue := update_queue self; total_updates := total_updates self;
     alerts_sent := n; connections_lost := connections_lost self |}.

(** [send_alerts]: the counter grows once the callback has returned; what
    the callback raises is logged. *)
Definition send_alerts (callback : update_callback) (updates : list loc)
    (self : RealTimeMonitor) : RealTimeMonitor :=
  match callback with
  | CallbackReturns =>
      with_alerts_sent (alerts_sent self + length updates) self
  | NoCallback | CallbackRaises => self
  end.

(** [update.apr >= bot_config.alert_apr_threshold] *)
Definition is_high_apr (h : list FundingUpdate) (l : loc) : bool :=
  match h !! l with
  | Some update => (alert_apr_threshold bot_config <=? apr update)%float
  | None => false
  end.

(** [process_funding_updates]: [if high_apr_updates and
    self.update_callback]. *)
Definition process_funding_updates (callback : update_callback)
    (updates : list loc) (self : RealTimeMonitor) : RealTimeMonitor :=
  let high_apr_updates := List.filter (is_high_apr (heap self)) updates in
  match high_apr_updates, callback with
  | [], _ => self
  | _ :: _, NoCallback => self
  | _ :: _, _ => send_alerts callback high_apr_updates self
  end.

(** A whole turn of [process_updates]: the batch is taken, and handed to
    [process_funding_updates] when it is not empty. *)
Definition process_updates_whole_turn (callback : update_callback)
    (self : RealTimeMonitor) : RealTimeMonitor :=
  let '(updates_batch, self1) := process_updates_turn self in
  match updates_batch with
  | [] => self1
  | _ :: _ => process_funding_updates callback updates_batch self1
  end.

(** The steps of the running monitor, with the consumer handing its
    batches on. *)
Inductive step_alerting : RealTimeMonitor -> RealTimeMonitor -> Prop :=
| alerting_message message exchange clock self :
    step_alerting self (process_websocket_message message exchange clock self)
| alerting_consume callback self :
    step_alerting self (process_updates_whole_turn callback self)
| alerting_cleanup now self :
    step_alerting self (periodic_cleanup_turn now self).

Definition reachable_alerting : RealTimeMonitor -> Prop :=
  rtc step_alerting (start_monitoring __init__).

(** ** The monitor statement by statement

    The tasks of the monitor run on one event loop, but the object is
    read from other threads, which can find it between any two
    statements.  Here each activity is followed through the statements
    that change the queue, the filter table or a counter; what lies
    between two of them changes none of these.  [ingestion] is the loop of
    [process_websocket_message], [consumption] the loop of
    [process_updates] with the awaited callback, [cleanup] the loop of
    [periodic_cleanup]. *)
Inductive ingestion :=
| NoMessage
| Filtering (updates : list loc)
    (* [for update in funding_updates]: these are still to come *)
| Putting (update : loc) (rest : list loc)
    (* [should_process_update] returned [True]; [put] comes next *)
| Counting (rest : list loc).
    (* [put] is done; the counter comes next *)

Inductive consumption :=
| Sleeping
| Collecting (updates_batch : list loc) (turns : nat)
    (* inside [for _ in range(10)], [turns] turns to go *)
| Alerting (high_apr_updates : list loc).
    (* [send_alerts] awaits the callback *)

Inductive cleanup :=
| Resting
| Deleting (keys_to_remove : list string).

Record activities := {
  ingesting : ingestion;
  consuming : consumption;
  cleaning : cleanup;
}.

Definition idle : activities :=
  {| ingesting := NoMessage; consuming := Sleeping; cleaning := Resting |}.

Definition with_ingesting (i : ingestion) (a : activities) : activities :=
  {| ingesting := i; consuming := consuming a; cleaning := cleaning a |}.

Definition with_consuming (c : consumption) (a : activities) : activities :=
  {| ingesting := ingesting a; consuming := c; cleaning := cleaning a |}.

Definition with_cleaning (c : cleanup) (a : activities) : activities :=
  {| ingesting := ingesting a; consuming := consuming a; cleaning := c |}.

Definition with_total_updates (n : nat) (self : RealTimeMonitor) :=
  {| heap := heap self; connections := connections self;
     is_running := is_running self;
     last_funding_data := last_funding_data self;
     update_queue := update_queue self; total_updates := n;
     alerts_sent := alerts_sent self; connections_lost := connections_lost self |}.

(** Where the consumer goes once its batch is complete: [if
    updates_batch], then [if high_apr_updates and self.update_callback]. *)
Definition after_batch (callback_set : bool) (h : list FundingUpdate)
    (updates_batch : list loc) : consumption :=
  match List.filter (is_high_apr h) updates_batch with
  | [] => Sleeping
  | high_apr_updates =>
      if callback_set then Alerting high_apr_updates else Sleeping
  end.

Inductive micro
  : RealTimeMonitor * activities -> RealTimeMonitor * activities -> Prop :=
| micro_message data exchange clock self a :
    (* a message is decoded and parsed: the objects exist, the loop begins *)
    ingesting a = NoMessage ->
    micro (self, a)
      (with_heap (heap self ++ funding_updates exchange clock data) self,
       with_ingesting
         (Filtering (seq (length (heap self))
                       (length (funding_updates exchange clock data)))) a)
| micro_rejected update rest self self1 a :
    ingesting a = Filtering (update :: rest) ->
    should_process_update update self = (false, self1) ->
    micro (self, a) (self1, with_ingesting (Filtering rest) a)
| micro_accepted update rest self self1 a :
    ingesting a = Filtering (update :: rest) ->
    should_process_update update self = (true, self1) ->
    micro (self, a) (self1, with_ingesting (Putting update rest) a)
| micro_put update rest self a :
    ingesting a = Putting update rest ->
    micro (self, a)
      (with_update_queue (update_queue self ++ [update]) self,
       with_ingesting (Counting rest) a)
| micro_count rest self a :
    ingesting a = Counting rest ->
    micro (self, a)
      (with_total_updates (S (total_updates self)) self,
       with_ingesting (Filtering rest) a)
| micro_message_done self a :
    ingesting a = Filtering [] ->
    micro (self, a) (self, with_ingesting NoMessage a)
| micro_wake self a :
    consuming a = Sleeping ->
    micro (self, a) (self, with_consuming (Collecting [] 10) a)
| micro_get update rest updates_batch turns self a :
    (* [get_nowait] returns the oldest update *)
    consuming a = Collecting updates_batch (S turns) ->
    update_queue self = update :: rest ->
    micro (self, a)
      (with_update_queue rest self,
       with_consuming (Collecting (updates_batch ++ [update]) turns) a)
| micro_batch callback_set updates_batch turns self a :
    (* the range is used up, or [get_nowait] raised [Empty] *)
    consuming a = Collecting updates_batch turns ->
    turns = 0 \/ update_queue self = [] ->
    micro (self, a)
      (self,
       with_consuming (after_batch callback_set (heap self) updates_batch) a)
| micro_callback_returns high_apr_updates self a :
    consuming a = Alerting high_apr_updates ->
    micro (self, a)
      (with_alerts_sent (alerts_sent self + length high_apr_updates) self,
       with_consuming Sleeping a)
| micro_callback_raises high_apr_updates self a :
    consuming a = Alerting high_apr_updates ->
    micro (self, a) (self, with_consuming Sleeping a)
| micro_sweep now self a :
    cleaning a = Resting ->
    micro (self, a)
      (self, with_cleaning (Deleting (keys_to_remove now self)) a)
| micro_delete key keys self a :
    cleaning a = Deleting (key :: keys) ->
    micro (self, a)
      (with_last_funding_data (delete key (last_funding_data self)) self,
       with_cleaning (Deleting keys) a)
| micro_sweep_done self a :
    cleaning a = Deleting [] ->
    micro (self, a) (self, with_cleaning Resting a).

Definition reachable_micro : RealTimeMonitor * activities -> Prop :=
  rtc micro (start_monitoring __init__, idle).

(** The updates the filter has accepted and the counter has not counted
    yet, and those of them that are in the queue already. *)
Definition accepted_uncounted (i : ingestion) : nat :=
  match i with
  | Putting _ _ | Counting _ => 1
  | NoMessage | Filtering _ => 0
  end.

Definition queued_uncounted (i : ingestion) : nat :=
  match i with
  | Counting _ => 1
  | NoMessage | Filtering _ | Putting _ _ => 0
  end.

(** The updates the consumer has taken from the queue and not yet
    dropped or reported. *)
Definition in_hand (c : consumption) : nat :=
  match c with
  | Sleeping => 0
  | Collecting updates_batch _ => length updates_batch
  | Alerting high_apr_updates => length high_apr_updates
  end.

(** What holds of the counters at every statement. *)
Definition counters_consistent (s : RealTimeMonitor * activities) : Prop :=
  alerts_sent s.1 + in_hand (consuming s.2) + length (update_queue s.1)
    <= total_updates s.1 + queued_uncounted (ingesting s.2) /\
  size (last_funding_data s.1)
    <= total_updates s.1 + accepted_uncounted (ingesting s.2).

(** ** Deduplication of collected opportunities ([data_collector.py]) *)

(** [source_priority] of [remove_duplicates] and
    [source_priority.get(exchange, 0)]. *)
Definition source_priority : list (string * nat) :=
  [ ("CoinGlass", 5); ("Binance", 4); ("Bybit", 3); ("OKX", 3);
    ("Gate.io", 2); ("Bitunix", 1); ("Hyperliquid", 1) ].

Fixpoint priority_in (table : list (string * nat)) (exchange : string) : nat :=
  match table with
  | [] => 0
  | (name, p) :: rest =>
      if String.eqb name exchange then p else priority_in rest exchange
  end.

Definition priority_of (exchange : string) : nat :=
  priority_in source_priority exchange.

(** The inner loop: the first element with the symbol [key] is replaced
    by [opp]. *)
Fixpoint replace_first (key : string) (opp : FundingUpdate)
    (unique_opportunities : list FundingUpdate) : list FundingUpdate :=
  match unique_opportunities with
  | [] => []
  | existing_opp :: rest =>
      if String.eqb (symbol existing_opp) key then opp :: rest
      else existing_opp :: replace_first key opp rest
  end.

(** One turn of the outer loop on the pair [(seen, unique_opportunities)]. *)
Definition remove_duplicates_turn
    (state : gmap string FundingUpdate * list FundingUpdate)
    (opp : FundingUpdate) : gmap string FundingUpdate * list FundingUpdate :=
  let key := symbol opp in
  match state.1 !! key with
  | None => (<[key := opp]> state.1, (state.2 ++ [opp])%list)
  | Some existing =>
      if (priority_of (exchange existing) <? priority_of (exchange opp))%nat
      then
        if existsb (fun e => String.eqb (symbol e) key) state.2
        then (<[key := opp]> state.1, replace_first key opp state.2)
        else state
      else state
  end.

Definition remove_duplicates (opportunities : list FundingUpdate)
    : list FundingUpdate :=
  (fold_left remove_duplicates_turn opportunities (∅, [])).2.

(** A one-entry payload in the envelope of each source. *)
Definition sample_payload (exchange : string) : value :=
  if String.eqb exchange "binance" then payload_a
  else if String.eqb exchange "bybit" then
    JDict [("data", JList [JDict [("symbol", JStr "XYZUSDT");
                                  ("fundingRate", JFloat 0.001)]])]
  else if String.eqb exchange "okx" then
    JDict [("data", JList [JDict [("instId", JStr "XYZ-USDT-SWAP");
                                  ("fundingRate", JFloat 0.001)]])]
  else if String.eqb exchange "gateio" then
    JDict [("result", JList [JDict [("contract", JStr "XYZ_USDT");
                                    ("funding_rate", JFloat 0.001)]])]
  else
    JDict [("data", JList [JDict [("instId", JStr "XYZUSDT");
                                  ("fundingRate", JFloat 0.001)]])].

(** What the loop of [remove_duplicates] keeps true of
    [(seen, unique_opportunities)] once it has gone through [processed]. *)
Definition dedup_inv (processed : list FundingUpdate)
    (state : gmap string FundingUpdate * list FundingUpdate) : Prop :=
  NoDup (symbol <$> state.2) /\
  (forall key opp,
      state.1 !! key = Some opp <-> opp ∈ state.2 /\ symbol opp = key) /\
  (forall u, u ∈ state.2 -> u ∈ processed) /\
  (forall v, v ∈ processed ->
     exists u, u ∈ state.2 /\ symbol u = symbol v /\
               priority_of (exchange v) <= priority_of (exchange u)).

(** * Properties *)

(** ** The event constructor *)

Lemma set_change_percent_same (u : FundingUpdate) :
  set_change_percent (change_percent u) u = u.
Proof. by destruct u. Qed.

Lemma post_init_Ok symbol0 rate apr0 exchange0 now u :
  __post_init__ symbol0 rate apr0 exchange0 now = Py.Ok u ->
  symbol u = symbol0 /\ funding_rate u = rate /\ exchange u = exchange0 /\
  timestamp u = now /\ change_percent u = 0%float /\
  apr u = (if (apr0 =? 0)%float then (abs rate * 3 * 365)%float else apr0) /\
  (50 <? abs rate)%float = false /\ (2 <= String.length symbol0)%nat.
Proof.
  unfold __post_init__.
  destruct (String.length symbol0 <? 2)%nat eqn:Hlen; [discriminate|].
  destruct (50 <? abs rate)%float eqn:Hrate; [discriminate|].
  intros [= <-]. cbn. apply Nat.ltb_ge in Hlen. by repeat split.
Qed.

(** ** The parsers *)

Lemma parse_item_Append symbol_field old1 old2 rate_field exchange0 now item u :
  parse_item symbol_field old1 old2 rate_field exchange0 now item = Append u ->
  ∃ x, extracted_rate rate_field item = Py.Ok x /\
       Py.float_nonzero x = true /\
       __post_init__ (symbol u) (x * 100)%float 0%float exchange0 now = Py.Ok u.
Proof.
  unfold parse_item, extracted_rate.
  destruct item as [| | | | |?|members]; try discriminate.
  destruct (default _ _) as [| | | |s| |]; try discriminate.
  destruct (in_TOP_50_COINS _); [discriminate|].
  destruct (py_float _) as [x|]; [|discriminate].
  destruct (Py.float_nonzero x) eqn:Hx; [|discriminate].
  destruct (__post_init__ _ _ _ _ _) as [u'|] eqn:Hu; [|discriminate].
  intros [= <-]. exists x. repeat split; [done|].
  by destruct (post_init_Ok _ _ _ _ _ _ Hu) as (-> & _).
Qed.

Lemma parse_items_Forall (P : FundingUpdate -> Prop) body clock k items :
  (∀ now item u, body now item = Append u -> P u) ->
  Forall P (parse_items body clock k items).
Proof.
  intros Hbody. revert k.
  induction items as [|item rest IH]; intros k; cbn; [constructor|].
  destruct (body (clock k) item) eqn:Hitem; eauto.
Qed.

(** Whatever holds of every update a loop body can append holds of every
    update [process_websocket_message] hands to the filter. *)
Lemma funding_updates_Forall (P : FundingUpdate -> Prop) exchange0 clock data :
  (∀ symbol_field old1 old2 rate_field label now item u,
     parse_item symbol_field old1 old2 rate_field label now item = Append u ->
     P u) ->
  Forall P (funding_updates exchange0 clock data).
Proof.
  intros HP. unfold funding_updates.
  repeat case_match; try constructor;
    unfold parse_binance_data, parse_bybit_data, parse_okx_data,
      parse_gateio_data, parse_bitget_data;
    repeat case_match; try constructor;
    apply parse_items_Forall; intros now item u; apply HP.
Qed.

Lemma parse_items_stops_at_abort body clock k pre bad post e :
  (∀ now, body now bad = Abort e) ->
  parse_items body clock k (pre ++ bad :: post) = parse_items body clock k pre.
Proof.
  intros Hbad. revert k.
  induction pre as [|item pre IH]; intros k; cbn.
  - by rewrite Hbad.
  - destruct (body (clock k) item); [apply IH | f_equal; apply IH | done].
Qed.

(** ** The significance filter *)

(** The four ways through [should_process_update], for a live update. *)
Lemma should_process_update_below_floor update self u :
  heap self !! update = Some u ->
  (apr u <? min_apr_threshold bot_config)%float = true ->
  should_process_update update self = (false, self).
Proof. intros Hu Hapr. unfold should_process_update. by rewrite Hu, Hapr. Qed.

Lemma should_process_update_first update self u :
  heap self !! update = Some u ->
  (apr u <? min_apr_threshold bot_config)%float = false ->
  last_funding_data self !! key_of u = None ->
  should_process_update update self =
    (true, with_last_funding_data
             (<[key_of u := update]> (last_funding_data self)) self).
Proof.
  intros Hu Hapr Hkey. unfold should_process_update.
  by rewrite Hu, Hapr, Hkey.
Qed.

Lemma should_process_update_too_soon update self u last last_update :
  heap self !! update = Some u ->
  last_funding_data self !! key_of u = Some last ->
  heap self !! last = Some last_update ->
  (timestamp u - timestamp last_update < minute)%Z ->
  should_process_update update self = (false, self).
Proof.
  intros Hu Hkey Hlast Hsoon. unfold should_process_update.
  rewrite Hu. destruct (apr u <? _)%float; [done|].
  rewrite Hkey, Hlast.
  by destruct (Z.ltb_spec (timestamp u - timestamp last_update) minute); [|lia].
Qed.

Lemma should_process_update_change update self u last last_update :
  heap self !! update = Some u ->
  (apr u <? min_apr_threshold bot_config)%float = false ->
  last_funding_data self !! key_of u = Some last ->
  heap self !! last = Some last_update ->
  (minute <= timestamp u - timestamp last_update)%Z ->
  let change_percent := change_of u last_update in
  let self1 :=
    with_heap (<[update := set_change_percent change_percent u]> (heap self))
      self in
  should_process_update update self =
    if (change_percent <? 10)%float then (false, self1)
    else (true, with_last_funding_data
                  (<[key_of u := update]> (last_funding_data self)) self1).
Proof.
  intros Hu Hapr Hkey Hlast Hlate. unfold should_process_update.
  rewrite Hu, Hapr, Hkey, Hlast.
  by destruct (Z.ltb_spec (timestamp u - timestamp last_update) minute); [lia|].
Qed.

(** A dangling location is refused and changes nothing. *)
Lemma should_process_update_dangling update self :
  heap self !! update = None ->
  should_process_update update self = (false, self).
Proof. intros Hu. unfold should_process_update. by rewrite Hu. Qed.

(** What the filter does to the heap: at most the [change_percent] of the
    update it was given is overwritten. *)
Lemma should_process_update_heap update self :
  heap (should_process_update update self).2 = heap self \/
  ∃ u c, heap self !! update = Some u /\
         heap (should_process_update update self).2 =
           <[update := set_change_percent c u]> (heap self).
Proof.
  unfold should_process_update.
  destruct (heap self !! update) as [u|] eqn:Hu; [|by left].
  destruct (apr u <? _)%float; [by left|].
  destruct (last_funding_data self !! key_of u) as [last|]; [|by left].
  destruct (heap self !! last) as [last_update|]; [|by left].
  destruct (_ <? minute)%Z; [by left|].
  right. exists u, (change_of u last_update).
  split; [done|]. by destruct (_ <? 10)%float.
Qed.

Lemma should_process_update_heap_length update self :
  length (heap (should_process_update update self).2) = length (heap self).
Proof.
  destruct (should_process_update_heap update self) as [->|(u & c & _ & ->)];
    [done|]. apply length_insert.
Qed.

Lemma should_process_update_object update self l u :
  heap self !! l = Some u ->
  ∃ c, heap (should_process_update update self).2 !! l
         = Some (set_change_percent c u) /\
       (l ≠ update -> c = change_percent u).
Proof.
  intros Hl.
  destruct (should_process_update_heap update self) as [->|(u' & c & Hu' & ->)].
  - exists (change_percent u). by rewrite set_change_percent_same.
  - destruct (decide (l = update)) as [->|Hne].
    + exists c. rewrite list_lookup_insert_eq by by eapply lookup_lt_Some.
      split; [|done]. congruence.
    + exists (change_percent u).
      rewrite list_lookup_insert_ne by done.
      by rewrite set_change_percent_same.
Qed.

Lemma put_heap update self : heap (put update self) = heap self.
Proof. done. Qed.

Lemma enqueue_updates_heap_length updates self :
  length (heap (enqueue_updates updates self)) = length (heap self).
Proof.
  revert self. induction updates as [|update rest IH]; intros self; [done|].
  cbn. pose proof (should_process_update_heap_length update self) as Hlen.
  destruct (should_process_update update self) as [[] self1]; cbn in *;
    rewrite IH; by rewrite ?put_heap.
Qed.

(** The loop over the new updates leaves every other object as it was. *)
Lemma enqueue_updates_frame updates self l :
  l ∉ updates ->
  heap (enqueue_updates updates self) !! l = heap self !! l.
Proof.
  revert self. induction updates as [|update rest IH]; intros self Hl; [done|].
  apply not_elem_of_cons in Hl as [Hne Hrest]. cbn.
  pose proof (should_process_update_heap update self) as Hheap.
  destruct (should_process_update update self) as [[] self1]; cbn in *;
    rewrite IH by done; rewrite ?put_heap;
    destruct Hheap as [->|(u & c & _ & ->)]; try done;
    by rewrite list_lookup_insert_ne.
Qed.

Lemma process_websocket_message_heap_length message exchange0 clock self :
  length (heap (process_websocket_message message exchange0 clock self)) =
  length (heap self) +
  length (match message with
          | Some data => funding_updates exchange0 clock data
          | None => []
          end).
Proof.
  destruct message as [data|]; cbn; [|lia].
  by rewrite enqueue_updates_heap_length; cbn; rewrite length_app.
Qed.

Lemma process_websocket_message_frame message exchange0 clock self l :
  l < length (heap self) ->
  heap (process_websocket_message message exchange0 clock self) !! l
    = heap self !! l.
Proof.
  intros Hl. destruct message as [data|]; cbn; [|done].
  rewrite enqueue_updates_frame.
  - cbn. by rewrite lookup_app_l.
  - rewrite elem_of_seq. lia.
Qed.

(** What an acceptance leaves behind. *)
Lemma should_process_update_accepted update self self1 u :
  heap self !! update = Some u ->
  should_process_update update self = (true, self1) ->
  last_funding_data self1 !! key_of u = Some update /\
  update_queue self1 = update_queue self /\
  ∃ c, heap self1 !! update = Some (set_change_percent c u).
Proof.
  intros Hu. unfold should_process_update. rewrite Hu.
  destruct (apr u <? _)%float; [discriminate|].
  destruct (last_funding_data self !! key_of u) as [last|].
  - destruct (heap self !! last) as [last_update|]; [|discriminate].
    destruct (_ <? minute)%Z; [discriminate|].
    destruct (_ <? 10)%float; [discriminate|].
    intros [= <-]. cbn. rewrite lookup_insert_eq. repeat split.
    eexists. apply list_lookup_insert_eq. by eapply lookup_lt_Some.
  - intros [= <-]. cbn. rewrite lookup_insert_eq. repeat split.
    exists (change_percent u). by rewrite set_change_percent_same.
Qed.

(** When the filter accepts, for a live update: the floor is not
    undercut, and either the key is new or a minute has passed and the
    change is not under ten percent.  The comparisons are the ones the
    code makes. *)
Lemma should_process_update_true_iff update self u :
  heap self !! update = Some u ->
  (should_process_update update self).1 = true <->
  (apr u <? min_apr_threshold bot_config)%float = false /\
  (last_funding_data self !! key_of u = None \/
   ∃ last last_update,
     last_funding_data self !! key_of u = Some last /\
     heap self !! last = Some last_update /\
     (minute <= timestamp u - timestamp last_update)%Z /\
     (change_of u last_update <? 10)%float = false).
Proof.
  intros Hu. unfold should_process_update. rewrite Hu.
  destruct (apr u <? _)%float; [cbn; naive_solver|].
  destruct (last_funding_data self !! key_of u) as [last|]; [|cbn; naive_solver].
  destruct (heap self !! last) as [last_update|] eqn:Hlast; [|cbn; naive_solver].
  destruct (Z.ltb_spec (timestamp u - timestamp last_update) minute).
  - cbn. split; [done|].
    intros (_ & [Hnone|(l' & lu' & Hl' & Hlu' & Hlate & _)]); [done|].
    injection Hl' as <-. rewrite Hlu' in Hlast. injection Hlast as <-. lia.
  - destruct (change_of u last_update <? 10)%float eqn:Hchange; cbn.
    + split; [done|].
      intros (_ & [Hnone|(l' & lu' & Hl' & Hlu' & _ & Hbig)]); [done|].
      injection Hl' as <-. rewrite Hlu' in Hlast. injection Hlast as <-.
      congruence.
    + split; [|done]. intros _. split; [done|]. right. eauto 10.
Qed.

(** ** Order on binary64 values

    [x < y] is false and [y <= x] is true together, unless one side is
    NaN: then both comparisons are false. *)

Lemma SFcompare_antisym x y c :
  SFcompare x y = Some c -> SFcompare y x = Some (CompOpp c).
Proof.
  destruct x as [sx|sx| |sx mx ex], y as [sy|sy| |sy my ey]; cbn;
    try discriminate; intros [= <-];
    try (destruct sx, sy; reflexivity);
    try (destruct sx; reflexivity); try (destruct sy; reflexivity).
  destruct sx, sy; try reflexivity.
  all: rewrite (Z.compare_antisym ey ex); destruct (ey ?= ex)%Z; cbn;
    try reflexivity.
  all: change (Pos.compare_cont Eq ?a ?b) with (Pos.compare a b).
  all: rewrite (Pos.compare_antisym mx my); destruct (mx ?= my)%positive;
    reflexivity.
Qed.

Lemma SFcompare_None x y :
  SFcompare x y = None -> x = S754_nan \/ y = S754_nan.
Proof.
  destruct x as [sx|sx| |sx mx ex], y as [sy|sy| |sy my ey]; cbn;
    try discriminate; auto.
Qed.

Lemma is_nan_false x : is_nan x = false -> Prim2SF x <> S754_nan.
Proof.
  unfold is_nan. rewrite FloatAxioms.eqb_spec. intros H E.
  rewrite E in H. discriminate.
Qed.

Lemma ltb_false_leb x y :
  is_nan x = false -> is_nan y = false ->
  (x <? y)%float = false -> (y <=? x)%float = true.
Proof.
  intros Hx Hy. apply is_nan_false in Hx, Hy. rewrite ltb_spec, leb_spec.
  unfold SFltb, SFleb.
  destruct (SFcompare (Prim2SF x) (Prim2SF y)) as [c|] eqn:Hc.
  - rewrite (SFcompare_antisym _ _ _ Hc). destruct c; cbn; congruence.
  - apply SFcompare_None in Hc as [?|?]; contradiction.
Qed.

Lemma leb_true_ltb x y : (y <=? x)%float = true -> (x <? y)%float = false.
Proof.
  rewrite ltb_spec, leb_spec. unfold SFltb, SFleb.
  destruct (SFcompare (Prim2SF y) (Prim2SF x)) as [c|] eqn:Hc; [|discriminate].
  rewrite (SFcompare_antisym _ _ _ Hc). destruct c; cbn; congruence.
Qed.

Lemma not_ltb_iff_leb x y :
  is_nan x = false -> is_nan y = false ->
  (x <? y)%float = false <-> (y <=? x)%float = true.
Proof. split; [by apply ltb_false_leb | apply leb_true_ltb]. Qed.

(** ** The filter on numbers

    For an update whose annualized rate is a number, and whose change
    against the stored prior is a number, the filter accepts exactly when
    the annualized rate is at least the floor and either the key has no
    stored prior, or at least a minute has passed since the prior and the
    change is at least ten percent. *)
Theorem should_process_update_at_least update self u :
  heap self !! update = Some u ->
  is_nan (apr u) = false ->
  (∀ last last_update,
     last_funding_data self !! key_of u = Some last ->
     heap self !! last = Some last_update ->
     is_nan (change_of u last_update) = false) ->
  (should_process_update update self).1 = true <->
  (min_apr_threshold bot_config <=? apr u)%float = true /\
  (last_funding_data self !! key_of u = None \/
   ∃ last last_update,
     last_funding_data self !! key_of u = Some last /\
     heap self !! last = Some last_update /\
     (minute <= timestamp u - timestamp last_update)%Z /\
     (10 <=? change_of u last_update)%float = true).
Proof.
  intros Hu Hapr Hchange.
  rewrite (should_process_update_true_iff _ _ _ Hu).
  rewrite (not_ltb_iff_leb (apr u) (min_apr_threshold bot_config)) by done.
  split; (intros [Hfloor Hrest]; split; [done|]);
    (destruct Hrest as [Hnone|(last & last_update & Hl & Hlu & Hlate & Hbig)];
     [by left|right; exists last, last_update; repeat split; try done]).
  - apply ltb_false_leb; [by eapply Hchange|done|done].
  - by apply leb_true_ltb.
Qed.

(** The time gate comes before the magnitude rule: an update that arrives
    within a minute of the stored prior is refused and not stamped,
    whatever its change. *)
Theorem time_gate_first update self u last last_update :
  heap self !! update = Some u ->
  last_funding_data self !! key_of u = Some last ->
  heap self !! last = Some last_update ->
  (timestamp u - timestamp last_update < minute)%Z ->
  should_process_update update self = (false, self).
Proof. apply should_process_update_too_soon. Qed.

(** On acceptance the update replaces the stored prior of its key; when
    there was a prior, the update carries its change against it. *)
Theorem should_process_update_effect update self self1 u :
  heap self !! update = Some u ->
  should_process_update update self = (true, self1) ->
  last_funding_data self1 = <[key_of u := update]> (last_funding_data self) /\
  match last_funding_data self !! key_of u ≫= (heap self !!.) with
  | Some last_update =>
      heap self1 !! update
        = Some (set_change_percent (change_of u last_update) u)
  | None => heap self1 = heap self
  end.
Proof.
  intros Hu. unfold should_process_update. rewrite Hu.
  destruct (apr u <? _)%float; [discriminate|].
  destruct (last_funding_data self !! key_of u) as [last|]; cbn.
  - destruct (heap self !! last) as [last_update|] eqn:Hlast; [|discriminate].
    destruct (_ <? minute)%Z; [discriminate|].
    destruct (_ <? 10)%float; [discriminate|].
    intros [= <-]. split; [done|]. cbn.
    apply list_lookup_insert_eq. by eapply lookup_lt_Some.
  - by intros [= <-].
Qed.

(** ** Claims about the parsers and the constructor *)

(** An envelope of the wrong shape yields no update. *)
Lemma parse_binance_data_not_a_list clock data :
  (∀ items, data ≠ JList items) -> parse_binance_data clock data = [].
Proof. intros Hdata. destruct data; try done. by destruct (Hdata items). Qed.

Lemma envelope_not_a_dict name data :
  (∀ members, data ≠ JDict members) -> envelope name data = [].
Proof. intros Hdata. destruct data; try done. by destruct (Hdata members). Qed.

(** The loop of the parser of a source, on the entries its payload
    carries. *)
Lemma funding_updates_carries exchange0 fmt clock data items :
  wire_format_of exchange0 = Some fmt ->
  carries exchange0 data items ->
  funding_updates exchange0 clock data
    = parse_items
        (parse_item (symbol_member fmt) (suffix1 fmt) (suffix2 fmt)
           (rate_member fmt) (exchange_label exchange0))
        clock 0 items.
Proof.
  unfold carries. intros Hfmt. rewrite Hfmt. revert Hfmt.
  unfold wire_format_of, funding_updates, exchange_label.
  destruct (String.eqb exchange0 "binance");
    [intros [= <-]; cbn; by intros ->|].
  destruct (String.eqb exchange0 "bybit");
    [intros [= <-]; cbn; intros (members & -> & Hitems);
     unfold parse_bybit_data, envelope; by rewrite Hitems|].
  destruct (String.eqb exchange0 "okx");
    [intros [= <-]; cbn; intros (members & -> & Hitems);
     unfold parse_okx_data, envelope; by rewrite Hitems|].
  destruct (String.eqb exchange0 "gateio");
    [intros [= <-]; cbn; intros (members & -> & Hitems);
     unfold parse_gateio_data, envelope; by rewrite Hitems|].
  destruct (String.eqb exchange0 "bitget");
    [intros [= <-]; cbn; intros (members & -> & Hitems);
     unfold parse_bitget_data, envelope; by rewrite Hitems|].
  discriminate.
Qed.

Lemma envelope_carries name data :
  envelope name data = [] \/
  ∃ members, data = JDict members /\
             dict_get name members = Some (JList (envelope name data)).
Proof.
  destruct data as [| | | | | |members]; try by left.
  cbn. destruct (dict_get name members) as [[| | | | |items|]|] eqn:Hget;
    try by left.
  right. by exists members.
Qed.

Lemma funding_updates_wrong_envelope exchange0 clock data :
  (∀ items, ¬ carries exchange0 data items) ->
  funding_updates exchange0 clock data = [].
Proof.
  unfold carries, wire_format_of, funding_updates.
  destruct (String.eqb exchange0 "binance").
  { cbn. intros Hno. destruct data; try done. by destruct (Hno items). }
  destruct (String.eqb exchange0 "bybit").
  { cbn. intros Hno. unfold parse_bybit_data.
    destruct (envelope_carries "data" data) as [->|Hyes]; [done|].
    by destruct (Hno _ Hyes). }
  destruct (String.eqb exchange0 "okx").
  { cbn. intros Hno. unfold parse_okx_data.
    destruct (envelope_carries "data" data) as [->|Hyes]; [done|].
    by destruct (Hno _ Hyes). }
  destruct (String.eqb exchange0 "gateio").
  { cbn. intros Hno. unfold parse_gateio_data.
    destruct (envelope_carries "result" data) as [->|Hyes]; [done|].
    by destruct (Hno _ Hyes). }
  destruct (String.eqb exchange0 "bitget").
  { cbn. intros Hno. unfold parse_bitget_data.
    destruct (envelope_carries "data" data) as [->|Hyes]; [done|].
    by destruct (Hno _ Hyes). }
  done.
Qed.

Lemma unconvertible_py_float v :
  unconvertible v <-> ∃ e, py_float v = Py.Raised e.
Proof.
  destruct v as [| |n| |s| |]; cbn.
  - split; [by eexists|done].
  - split; [done|by intros [e ?]].
  - unfold Py.float_of_int. destruct (is_infinity _).
    + split; [by eexists|done].
    + split; [done|by intros [e ?]].
  - split; [done|by intros [e ?]].
  - destruct (float_of_str s).
    + split; [done|by intros [e ?]].
    + split; [by eexists|done].
  - split; [by eexists|done].
  - split; [by eexists|done].
Qed.

(** The loop body raises on an entry exactly when the entry is one of
    those listed in [raising_entry], and which exception it raises does
    not depend on the time. *)
Lemma raising_entry_Abort fmt label item :
  raising_entry fmt item ->
  ∃ e, ∀ now,
    parse_item (symbol_member fmt) (suffix1 fmt) (suffix2 fmt)
      (rate_member fmt) label now item = Abort e.
Proof.
  intros [item' Hitem|members v Hv Htext|members s Hs Htop Hrate
          |members s x Hs Htop Hx Hnz Hshort|members s x Hs Htop Hx Hnz Hhigh].
  - exists Py.AttributeError. intros now.
    destruct item' as [| | | | | |members]; try done.
    by destruct (Hitem members).
  - exists Py.AttributeError. intros now. unfold parse_item. rewrite Hv.
    destruct v as [| | | |s| |]; try done. by destruct (Htext s).
  - apply unconvertible_py_float in Hrate as [e He].
    exists e. intros now. unfold parse_item. rewrite Hs.
    unfold instrument in Htop. by rewrite Htop, He.
  - exists (Py.ValueError "bad symbol"). intros now.
    unfold parse_item. rewrite Hs.
    unfold instrument in Htop, Hshort. unfold extracted_rate in Hx.
    rewrite Htop, Hx, Hnz. unfold __post_init__.
    by destruct (Nat.ltb_spec (String.length
      (Py.str_remove (Py.str_remove s (suffix1 fmt)) (suffix2 fmt))) 2);
      [|lia].
  - unfold instrument in Htop. unfold extracted_rate in Hx.
    destruct (String.length
      (Py.str_remove (Py.str_remove s (suffix1 fmt)) (suffix2 fmt)) <? 2)%nat
      eqn:Hlen.
    + exists (Py.ValueError "bad symbol"). intros now.
      unfold parse_item. rewrite Hs, Htop, Hx, Hnz.
      unfold __post_init__. by rewrite Hlen.
    + exists (Py.ValueError "suspiciously high funding rate").
      intros now. unfold parse_item. rewrite Hs, Htop, Hx, Hnz.
      unfold __post_init__. by rewrite Hlen, Hhigh.
Qed.

Lemma Abort_raising_entry fmt label now item e :
  parse_item (symbol_member fmt) (suffix1 fmt) (suffix2 fmt)
    (rate_member fmt) label now item = Abort e ->
  raising_entry fmt item.
Proof.
  destruct item as [| | | | | |members];
    try (intros _; by apply entry_not_an_object).
  unfold parse_item.
  destruct (default (JStr EmptyString)
              (dict_get (symbol_member fmt) members)) as [| | | |s| |] eqn:Hs;
    try (destruct (dict_get (symbol_member fmt) members) as [v|] eqn:Hv;
         [|discriminate]; cbn in Hs; subst v;
         intros _; by eapply symbol_not_text).
  change (Py.str_remove (Py.str_remove s (suffix1 fmt)) (suffix2 fmt))
    with (instrument fmt s).
  destruct (in_TOP_50_COINS (instrument fmt s)) eqn:Htop; [done|].
  destruct (py_float _) as [x|e'] eqn:Hx.
  - destruct (Py.float_nonzero x) eqn:Hnz; [|done].
    unfold __post_init__.
    destruct (Nat.ltb_spec (String.length (instrument fmt s)) 2).
    + intros _. by eapply symbol_too_short.
    + destruct (50 <? abs (x * 100))%float eqn:Hhigh; [|done].
      intros _. by eapply rate_out_of_range.
  - intros _. eapply rate_not_a_number; [done..|].
    apply unconvertible_py_float. by eexists.
Qed.

(** C2 (as amended).  A parser never raises: its loop runs inside [try]
    and the function returns [updates] as it stands.  A payload whose
    envelope has the wrong shape yields the empty list.  On a payload
    with the right envelope, an entry that raises (it is not an object;
    its symbol is not text; or, its instrument not being excluded, its
    rate cannot be converted, or is not zero while the instrument name is
    shorter than two characters or one hundred times the rate exceeds 50
    in magnitude) ends the loop: the parser returns what it returns for
    the payload cut before that entry. *)
Theorem parser_returns_updates_before_abort exchange0 clock data :
  ((∀ items, ¬ carries exchange0 data items) ->
   funding_updates exchange0 clock data = []) /\
  (∀ fmt pre bad post cut,
     wire_format_of exchange0 = Some fmt ->
     carries exchange0 data (pre ++ bad :: post) ->
     raising_entry fmt bad ->
     carries exchange0 cut pre ->
     funding_updates exchange0 clock data
       = funding_updates exchange0 clock cut).
Proof.
  split; [apply funding_updates_wrong_envelope|].
  intros fmt pre bad post cut Hfmt Hdata Hbad Hcut.
  rewrite (funding_updates_carries _ _ _ _ _ Hfmt Hdata).
  rewrite (funding_updates_carries _ _ _ _ _ Hfmt Hcut).
  destruct (raising_entry_Abort fmt (exchange_label exchange0) bad Hbad)
    as [e He].
  by apply parse_items_stops_at_abort with e.
Qed.

(** C3 (as amended).  Every parser multiplies the extracted rate by 100
    whatever its magnitude: the rate of an update it builds is one hundred
    times the value read from the entry, a value that is not zero. *)
Theorem rate_is_always_multiplied symbol_field old1 old2 rate_field label
    now item u :
  parse_item symbol_field old1 old2 rate_field label now item = Append u ->
  ∃ x, extracted_rate rate_field item = Py.Ok x /\
       Py.float_nonzero x = true /\
       funding_rate u = (x * 100)%float.
Proof.
  intros (x & Hx & Hnz & Hu)%parse_item_Append.
  exists x. repeat split; [done..|].
  by destruct (post_init_Ok _ _ _ _ _ _ Hu) as (_ & -> & _).
Qed.

(** C7 (as amended).  Built with [apr = 0], an update gets the binary64
    product [(|rate| * 3) * 365] as its annualized rate.  For the rate
    0.05 this product is 54.75000000000001, the next binary64 value above
    54.75. *)
Theorem apr_is_derived_from_rate symbol0 rate exchange0 now u :
  __post_init__ symbol0 rate 0%float exchange0 now = Py.Ok u ->
  apr u = (abs rate * 3 * 365)%float /\
  (rate = 0.05%float -> apr u = 54.75000000000001%float).
Proof.
  intros (_ & _ & _ & _ & _ & Hapr & _)%post_init_Ok.
  change (0 =? 0)%float with true in Hapr. split; [done|].
  intros ->. by rewrite Hapr.
Qed.

Lemma parse_item_within_range symbol_field old1 old2 rate_field label now
    item u :
  parse_item symbol_field old1 old2 rate_field label now item = Append u ->
  within_range u.
Proof.
  intros (x & _ & _ & Hu)%parse_item_Append.
  destruct (post_init_Ok _ _ _ _ _ _ Hu) as (_ & Hrate & _ & _ & _ & _ & Hin & _).
  unfold within_range. by rewrite Hrate.
Qed.

Lemma should_process_update_within_range update self :
  Forall within_range (heap self) ->
  Forall within_range (heap (should_process_update update self).2).
Proof.
  intros Hall.
  destruct (should_process_update_heap update self) as [->|(u & c & Hu & ->)];
    [done|].
  apply Forall_insert; [done|].
  by eapply (Forall_lookup_1 within_range) in Hu.
Qed.

Lemma enqueue_updates_within_range updates self :
  Forall within_range (heap self) ->
  Forall within_range (heap (enqueue_updates updates self)).
Proof.
  revert self. induction updates as [|update rest IH]; intros self Hall; [done|].
  cbn. pose proof (should_process_update_within_range update self Hall) as H1.
  destruct (should_process_update update self) as [[] self1]; cbn in *;
    by apply IH.
Qed.

Lemma step_within_range self self' :
  step self self' ->
  Forall within_range (heap self) -> Forall within_range (heap self').
Proof.
  intros [[data|] exchange0 clock s|s|now s] Hall; try done.
  cbn. apply enqueue_updates_within_range. cbn.
  apply Forall_app. split; [done|].
  apply funding_updates_Forall; intros *; apply parse_item_within_range.
Qed.

(** C6.  An update whose rate exceeds 50 in magnitude is never built, so
    none is handed to the filter: no parser returns one, and no such object
    exists in any reachable state of the monitor. *)
Theorem corrupt_rate_never_reaches_filter :
  (∀ exchange0 clock data,
     Forall within_range (funding_updates exchange0 clock data)) /\
  (∀ self, reachable self -> Forall within_range (heap self)).
Proof.
  split.
  - intros. apply funding_updates_Forall; intros *; apply parse_item_within_range.
  - intros self Hreach.
    apply (rtc_ind_r (R := step) (fun s => Forall within_range (heap s))
             (start_monitoring __init__));
      [constructor| |exact Hreach].
    intros s s' _ Hstep IH. by eapply step_within_range.
Qed.

(** ** Claims about the filter and the objects it handles *)

(** C5 (as amended).  The filter writes one field of one object: the
    [change_percent] of the update it is given.  Every other field of that
    update, and every field of every other object, stays as constructed.
    Processing a message creates one new object per parsed reading and
    leaves every object that existed before exactly as it was. *)
Theorem filter_writes_only_change_percent update self l u :
  heap self !! l = Some u ->
  (∃ c, heap (should_process_update update self).2 !! l
          = Some (set_change_percent c u) /\
        (l ≠ update -> c = change_percent u)) /\
  (∀ message exchange0 clock,
     let self' := process_websocket_message message exchange0 clock self in
     heap self' !! l = Some u /\
     length (heap self') =
       length (heap self) +
       length (match message with
               | Some data => funding_updates exchange0 clock data
               | None => []
               end)).
Proof.
  intros Hl. split; [by apply should_process_update_object|].
  intros message exchange0 clock self'. split.
  - unfold self'. rewrite process_websocket_message_frame; [done|].
    by eapply lookup_lt_Some.
  - apply process_websocket_message_heap_length.
Qed.

(** The parsers read the clock only to date the updates they build. *)
Lemma post_init_clock symbol0 rate apr0 exchange0 now now' :
  __post_init__ symbol0 rate apr0 exchange0 now' =
  match __post_init__ symbol0 rate apr0 exchange0 now with
  | Py.Ok u => Py.Ok (at_time now' u)
  | Py.Raised e => Py.Raised e
  end.
Proof. unfold __post_init__. by repeat case_match. Qed.

Lemma parse_item_clock symbol_field old1 old2 rate_field label now now' item :
  parse_item symbol_field old1 old2 rate_field label now' item =
  match parse_item symbol_field old1 old2 rate_field label now item with
  | Append u => Append (at_time now' u)
  | other => other
  end.
Proof.
  unfold parse_item.
  destruct item as [| | | | |?|members]; try done.
  destruct (default _ _) as [| | | |s| |]; try done.
  destruct (in_TOP_50_COINS _); [done|].
  destruct (py_float _) as [x|]; [|done].
  destruct (Py.float_nonzero x); [|done].
  rewrite (post_init_clock _ _ _ _ now now').
  by destruct (__post_init__ _ _ _ _ now).
Qed.

Lemma parse_items_clock body clock clock' k items :
  (∀ now now' item,
     body now' item = match body now item with
                      | Append u => Append (at_time now' u)
                      | other => other
                      end) ->
  parse_items body clock' k items = stamp clock' k (parse_items body clock k items).
Proof.
  intros Hbody. revert k.
  induction items as [|item rest IH]; intros k; cbn; [done|].
  rewrite (Hbody (clock k) (clock' k)).
  destruct (body (clock k) item); cbn; [apply IH | f_equal; apply IH | done].
Qed.

Lemma funding_updates_clock exchange0 clock clock' data :
  funding_updates exchange0 clock' data
    = stamp clock' 0 (funding_updates exchange0 clock data).
Proof.
  unfold funding_updates, parse_binance_data, parse_bybit_data, parse_okx_data,
    parse_gateio_data, parse_bitget_data.
  repeat case_match; try done;
    apply parse_items_clock; intros; apply parse_item_clock.
Qed.

Lemma should_process_update_update_queue update self :
  update_queue (should_process_update update self).2 = update_queue self.
Proof. unfold should_process_update. by repeat case_match. Qed.

Lemma should_process_update_total_updates update self :
  total_updates (should_process_update update self).2 = total_updates self.
Proof. unfold should_process_update. by repeat case_match. Qed.

Lemma should_process_update_rejected update self self1 :
  should_process_update update self = (false, self1) ->
  last_funding_data self1 = last_funding_data self.
Proof.
  unfold should_process_update. repeat case_match; by intros [= <-].
Qed.

Lemma funding_updates_single_time exchange0 clock data u :
  funding_updates exchange0 clock data = [u] -> timestamp u = clock 0.
Proof.
  intros Hu. pose proof (funding_updates_clock exchange0 clock clock data) as H.
  rewrite Hu in H. cbn in H. injection H as H. by rewrite H.
Qed.

Lemma process_single_update exchange0 clock data u self :
  funding_updates exchange0 clock data = [u] ->
  process_websocket_message (Some data) exchange0 clock self =
    let self0 := with_heap (heap self ++ [u]) self in
    let r := should_process_update (length (heap self)) self0 in
    if r.1 then put (length (heap self)) r.2 else r.2.
Proof.
  intros Hu. unfold process_websocket_message. rewrite Hu. cbn.
  by destruct (should_process_update _ _) as [[] ?].
Qed.

(** C8.  The same one-reading payload fed twice, the second time less than
    a minute after the first was accepted: the first reading is the only one
    enqueued.  The second is stopped at the time gate: the filter table is
    as the first acceptance left it, and nothing changes but the creation
    of the second, unfiltered object. *)
Theorem same_payload_twice_within_a_minute exchange0 data
    (clock1 clock2 : nat -> Z) self u1 :
  funding_updates exchange0 clock1 data = [u1] ->
  let self1 := process_websocket_message (Some data) exchange0 clock1 self in
  update_queue self1 = (update_queue self ++ [length (heap self)])%list ->
  (clock2 0%nat - clock1 0%nat < minute)%Z ->
  let self2 := process_websocket_message (Some data) exchange0 clock2 self1 in
  update_queue self2 = (update_queue self ++ [length (heap self)])%list /\
  total_updates self2 = S (total_updates self) /\
  last_funding_data self2 = last_funding_data self1 /\
  last_funding_data self1 !! key_of u1 = Some (length (heap self)) /\
  heap self2 = (heap self1 ++ [at_time (clock2 0) u1])%list.
Proof.
  intros Hu1 self1 Haccepted Hsoon self2.
  pose proof (funding_updates_single_time _ _ _ _ Hu1) as Htime.
  assert (funding_updates exchange0 clock2 data = [at_time (clock2 0) u1]) as Hu2.
  { rewrite (funding_updates_clock exchange0 clock1 clock2). by rewrite Hu1. }
  set (first := length (heap self)) in *.
  set (self0 := with_heap (heap self ++ [u1]) self).
  assert (heap self0 !! first = Some u1) as Hfirst
    by (apply list_lookup_middle; done).
  assert (self1 = put first (should_process_update first self0).2 /\
          (should_process_update first self0).1 = true) as [Hself1 Hok].
  { unfold self1 in *. rewrite (process_single_update _ _ _ _ _ Hu1) in *.
    cbn zeta in *. fold first self0 in Haccepted |- *.
    destruct (should_process_update first self0).1 eqn:Hok; [done|].
    rewrite should_process_update_update_queue in Haccepted. cbn in Haccepted.
    apply (f_equal length) in Haccepted. rewrite length_app in Haccepted.
    cbn in Haccepted. lia. }
  clearbody self1.
  destruct (should_process_update first self0) as [ok s1] eqn:Hspu.
  cbn in Hok, Hself1. subst ok self1.
  destruct (should_process_update_accepted _ _ _ _ Hfirst Hspu)
    as (Hkey & Hqueue & c & Hstored).
  pose proof (should_process_update_heap_length first self0) as Hlen.
  rewrite Hspu in Hlen. cbn in Hlen. rewrite length_app in Hlen. cbn in Hlen.
  set (u2 := at_time (clock2 0) u1) in *.
  set (self1 := put first s1) in *.
  set (self0' := with_heap (heap self1 ++ [u2]) self1).
  assert (should_process_update (length (heap self1)) self0' = (false, self0'))
    as Hsecond.
  { apply (should_process_update_too_soon _ _ u2 first (set_change_percent c u1)).
    - by apply list_lookup_middle.
    - done.
    - cbn. by apply lookup_app_l_Some.
    - cbn. lia. }
  assert (self2 = self0') as ->.
  { unfold self2. rewrite (process_single_update _ _ _ _ _ Hu2). cbn zeta.
    fold self0'. by rewrite Hsecond. }
  pose proof (should_process_update_total_updates first self0) as Htotal.
  rewrite Hspu in Htotal. cbn in Htotal |- *. by rewrite Hqueue, Htotal.
Qed.

(** ** The reconnection limit *)

Lemma lose_connection_is_running closed self :
  is_running (lose_connection closed self) = is_running self.
Proof. by destruct closed. Qed.

Lemma lose_connection_connections closed self :
  connections (lose_connection closed self) = connections self.
Proof. by destruct closed. Qed.

Lemma monitor_loop_stops exchange0 script reconnect_count attempts self :
  (max_reconnects websocket_config <= reconnect_count)%nat ->
  monitor_loop exchange0 script reconnect_count attempts self =
    Returned true attempts
      (with_connections (connections self ∖ {[exchange0]}) self).
Proof.
  intros Hmax.
  assert ((reconnect_count <? max_reconnects websocket_config)%nat = false)
    as Hlt by by apply Nat.ltb_ge.
  assert ((max_reconnects websocket_config <=? reconnect_count)%nat = true)
    as Hle by by apply Nat.leb_le.
  destruct script; unfold monitor_loop; rewrite Hlt, Hle;
    by destruct (is_running self).
Qed.

Lemma monitor_loop_connect_raises exchange0 closed rest reconnect_count
    attempts self :
  is_running self = true ->
  (reconnect_count < max_reconnects websocket_config)%nat ->
  monitor_loop exchange0 (ConnectRaises closed :: rest) reconnect_count
    attempts self =
  monitor_loop exchange0 rest (S reconnect_count) (S attempts)
    (lose_connection closed self).
Proof.
  intros Hrun Hlt. apply Nat.ltb_lt in Hlt.
  change (monitor_loop exchange0 (ConnectRaises closed :: rest)
            reconnect_count attempts self)
    with (if is_running self
                && (reconnect_count <? max_reconnects websocket_config)%nat
          then monitor_loop exchange0 rest (S reconnect_count) (S attempts)
                 (lose_connection closed self)
          else Returned
                 (max_reconnects websocket_config <=? reconnect_count)%nat
                 attempts
                 (with_connections (connections self ∖ {[exchange0]}) self)).
  by rewrite Hrun, Hlt.
Qed.

Lemma monitor_loop_exhausts exchange0 closeds rest reconnect_count attempts self :
  is_running self = true ->
  reconnect_count + length closeds = max_reconnects websocket_config ->
  ∃ self',
    monitor_loop exchange0 (map ConnectRaises closeds ++ rest)
      reconnect_count attempts self
      = Returned true (attempts + length closeds) self' /\
    connections self' = connections self ∖ {[exchange0]}.
Proof.
  revert reconnect_count attempts self.
  induction closeds as [|closed closeds IH];
    intros reconnect_count attempts self Hrun Hcount; cbn [length map app] in *.
  - rewrite monitor_loop_stops by lia. rewrite Nat.add_0_r. by eexists.
  - rewrite monitor_loop_connect_raises by (done || lia).
    destruct (IH (S reconnect_count) (S attempts)
                (lose_connection closed self)) as (self' & Hloop & Hconn).
    + by rewrite lose_connection_is_running.
    + lia.
    + exists self'. rewrite Hloop, Hconn, lose_connection_connections.
      split; [f_equal; lia|done].
Qed.

(** C9.  When [connect] raises [max_reconnects] times in a row from the
    start of a run, the supervisor returns having logged the failure,
    after exactly that many attempts, whatever the environment would have
    done next, and the exchange is not among the connections. *)
Theorem supervisor_fails_after_max_reconnects exchange0 closeds rest self :
  is_running self = true ->
  length closeds = max_reconnects websocket_config ->
  ∃ self',
    monitor_exchange exchange0 (map ConnectRaises closeds ++ rest) self
      = Returned true (max_reconnects websocket_config) self' /\
    exchange0 ∉ connections self'.
Proof.
  intros Hrun Hlen.
  destruct (monitor_loop_exhausts exchange0 closeds rest 0 0 self Hrun Hlen)
    as (self' & Hloop & Hconn).
  exists self'. unfold monitor_exchange. rewrite Hloop, Hconn, Hlen.
  split; [done|]. set_solver.
Qed.

(** ** The periodic sweep *)

Lemma lookup_foldr_delete (t : gmap string nat) (keys : list string) key :
  foldr delete t keys !! key = if decide (key ∈ keys) then None else t !! key.
Proof.
  clear float_of_str. induction keys as [|k keys IH]; cbn.
  - by rewrite decide_False by set_solver.
  - destruct (decide (k = key)) as [->|Hne].
    + rewrite lookup_delete_eq. by rewrite decide_True by set_solver.
    + rewrite lookup_delete_ne by done. rewrite IH.
      destruct (decide (key ∈ keys)).
      * by rewrite decide_True by set_solver.
      * by rewrite decide_False by set_solver.
Qed.

Lemma elem_of_keys_to_remove now self key :
  key ∈ keys_to_remove now self <->
  ∃ update, last_funding_data self !! key = Some update /\
            is_old (heap self) (now - hour) (key, update) = true.
Proof.
  unfold keys_to_remove. rewrite list_elem_of_fmap. split.
  - intros ([k update] & -> & Hin). apply list_elem_of_filter in Hin as [Hold Hin].
    apply elem_of_map_to_list in Hin. exists update.
    split; [done|]. by apply Is_true_true.
  - intros (update & Hkey & Hold). exists (key, update). split; [done|].
    apply list_elem_of_filter. split; [by apply Is_true_true|].
    by apply elem_of_map_to_list.
Qed.

(** C10.  A sweep at time [now] removes an entry of the filter table
    exactly when its update is more than an hour old, and keeps any other
    entry as it is. *)
Theorem sweep_removes_exactly_the_old now self key update u :
  last_funding_data self !! key = Some update ->
  heap self !! update = Some u ->
  last_funding_data (periodic_cleanup_turn now self) !! key =
    if decide (hour < now - timestamp u)%Z then None else Some update.
Proof.
  intros Hkey Hu. cbn. rewrite lookup_foldr_delete.
  destruct (decide (key ∈ keys_to_remove now self)) as [Hin|Hnot].
  - apply elem_of_keys_to_remove in Hin as (update' & Hkey' & Hold).
    rewrite Hkey in Hkey'. injection Hkey' as <-.
    unfold is_old in Hold. cbn in Hold. rewrite Hu in Hold.
    apply Z.ltb_lt in Hold. by rewrite decide_True by lia.
  - rewrite Hkey. rewrite decide_False; [done|]. intros Hlate.
    apply Hnot, elem_of_keys_to_remove. exists update. split; [done|].
    unfold is_old. cbn. rewrite Hu. apply Z.ltb_lt. lia.
Qed.

(** ** The dispatch queue *)

Lemma many_A_length n : String.length (many_A n) = n.
Proof. induction n; cbn; congruence. Qed.

Lemma remove_from_many_A old n :
  (∀ rest, old ≠ String "A" rest) -> old ≠ EmptyString ->
  Py.remove_from old 0 (many_A n) = many_A n.
Proof.
  intros Hold Hne. induction n as [|n IH]; [done|].
  cbn [many_A Py.remove_from].
  destruct old as [|c old]; [done|].
  cbn [String.prefix].
  destruct (ascii_dec c "A") as [->|Hc]; [by destruct (Hold old)|].
  by rewrite IH.
Qed.

Lemma in_TOP_50_COINS_long s :
  6 < String.length s -> in_TOP_50_COINS s = false.
Proof.
  intros Hlen. apply not_true_is_false. intros Hin.
  apply existsb_exists in Hin as (t & Hin & Heq).
  apply String.eqb_eq in Heq as <-.
  unfold TOP_50_COINS in Hin. cbn in Hin.
  repeat (destruct Hin as [<-|Hin]; [cbn in Hlen; lia|]). done.
Qed.

Lemma binance_item_burst now k :
  binance_item now (ticker (burst_symbol k) 0.001) = Append (burst_update now k).
Proof.
  unfold binance_item, parse_item, ticker, burst_symbol.
  cbn [dict_get default String.eqb Ascii.eqb Bool.eqb id py_float].
  unfold Py.str_remove.
  rewrite !remove_from_many_A by done.
  rewrite in_TOP_50_COINS_long by (rewrite many_A_length; lia).
  change (Py.float_nonzero 0.001) with true. cbv iota.
  unfold __post_init__. rewrite many_A_length.
  destruct (Nat.ltb_spec (k + 7) 2) as [Hlt|_]; [lia|].
  change (50 <? abs (0.001 * 100))%float with false.
  by change (0 =? 0)%float with true.
Qed.

Lemma parse_items_burst clock k0 ks :
  parse_items binance_item clock k0
    ((fun k => ticker (burst_symbol k) 0.001) <$> ks)
  = imap (fun i k => burst_update (clock (k0 + i)) k) ks.
Proof.
  revert k0. induction ks as [|k ks IH]; intros k0; [done|].
  rewrite fmap_cons. cbn [parse_items]. rewrite binance_item_burst.
  cbn [imap]. rewrite Nat.add_0_r. f_equal.
  rewrite IH. apply imap_ext. intros i k' _. cbn. do 2 f_equal. lia.
Qed.

Lemma string_length_append (s1 s2 : string) :
  String.length (s1 ++ s2) = String.length s1 + String.length s2.
Proof. induction s1 as [|c s1 IH]; simpl; [done|by rewrite IH]. Qed.

Lemma key_of_burst_update_inj now now' k k' :
  key_of (burst_update now k) = key_of (burst_update now' k') -> k = k'.
Proof.
  unfold key_of, burst_update, burst_symbol. cbn. intros Heq.
  apply (f_equal String.length) in Heq.
  rewrite !string_length_append, !many_A_length in Heq. lia.
Qed.

(** Updates with new, pairwise distinct keys and an annualized rate not
    under the floor are all enqueued, in order. *)
Lemma enqueue_updates_all_new updates us self :
  Forall2 (fun l u => heap self !! l = Some u) updates us ->
  Forall (fun u => (apr u <? min_apr_threshold bot_config)%float = false /\
                   last_funding_data self !! key_of u = None) us ->
  NoDup (key_of <$> us) ->
  update_queue (enqueue_updates updates self)
    = (update_queue self ++ updates)%list.
Proof.
  revert us self.
  induction updates as [|l updates IH]; intros us self Hlive Hnew Hdup.
  - cbn. by rewrite app_nil_r.
  - apply Forall2_cons_inv_l in Hlive as (u & us' & Hl & Hrest & ->).
    apply Forall_cons in Hnew as [[Hapr Hnone] Hnew].
    rewrite fmap_cons in Hdup. apply NoDup_cons in Hdup as [Hfresh Hdup].
    cbn [enqueue_updates].
    rewrite (should_process_update_first l self u Hl Hapr Hnone).
    rewrite (IH us'); [cbn; by rewrite <- app_assoc|done| |done].
    apply Forall_forall. intros u' Hu'.
    rewrite Forall_forall in Hnew. destruct (Hnew u' Hu') as [Hapr' Hnone'].
    split; [done|]. cbn. rewrite lookup_insert_ne; [done|].
    intros Heq. apply Hfresh. rewrite Heq. by apply list_elem_of_fmap_2.
Qed.

Lemma NoDup_burst_keys clock ks :
  NoDup ks -> NoDup (key_of <$> imap (fun i k => burst_update (clock i) k) ks).
Proof.
  intros Hks. apply NoDup_alt. intros i j key Hi Hj.
  rewrite list_lookup_fmap in Hi, Hj.
  rewrite list_lookup_imap in Hi, Hj.
  destruct (ks !! i) as [k|] eqn:Hki; [|done].
  destruct (ks !! j) as [k'|] eqn:Hkj; [|done].
  cbn in Hi, Hj. injection Hi as <-. injection Hj as Heq.
  apply key_of_burst_update_inj in Heq as ->.
  by eapply NoDup_lookup.
Qed.

(** One message with [n] tickers of instruments never seen before puts
    [n] updates into the queue of a fresh monitor. *)
Lemma burst_is_enqueued clock n :
  update_queue
    (process_websocket_message (Some (burst n)) "binance" clock
       (start_monitoring __init__))
  = seq 0 n.
Proof.
  unfold process_websocket_message, burst.
  change (funding_updates "binance" clock (JList ?items))
    with (parse_items binance_item clock 0 items).
  rewrite parse_items_burst. cbn [heap start_monitoring __init__ length app].
  rewrite length_imap, length_seq.
  rewrite (enqueue_updates_all_new _
             (imap (fun i k => burst_update (clock (0 + i)) k) (seq 0 n)));
    [done| | |].
  - apply Forall2_same_length_lookup. split.
    + by rewrite length_imap.
    + intros i l u Hl Hu. cbn. rewrite <- Hu.
      apply lookup_seq in Hl as [-> _]. done.
  - apply Forall_forall. intros u Hu.
    apply list_elem_of_lookup in Hu as [i Hu].
    rewrite list_lookup_imap in Hu.
    destruct (seq 0 n !! i); [|done]. injection Hu as <-.
    split; [by vm_compute|apply lookup_empty].
  - apply (NoDup_burst_keys (fun i => clock (0 + i))), NoDup_seq.
Qed.

(** C4 (as amended).  The queue has no capacity: an enqueue never blocks
    and never drops, it appends; and for every bound, a single message
    leaves a fresh monitor in a reachable state whose queue holds more
    pending updates than the bound. *)
Theorem dispatch_queue_is_unbounded :
  (∀ update self,
     update_queue (put update self) = (update_queue self ++ [update])%list) /\
  (∀ N clock, ∃ data,
     let self :=
       process_websocket_message (Some data) "binance" clock
         (start_monitoring __init__) in
     reachable self /\ N < length (update_queue self)).
Proof.
  split; [done|]. intros N clock. exists (burst (S N)). split.
  - eapply rtc_l; [apply step_message|apply rtc_refl].
  - rewrite burst_is_enqueued, length_seq. lia.
Qed.

(** ** A rate that is not a number

    C1, the code at the failing input.  The decoder accepts the literal
    [NaN], and [float] accepts the text ["nan"].  Such a rate passes the
    range check of the constructor, its annualized rate is NaN, and the
    floor test [apr < min_apr_threshold] is false for it: the update is
    accepted and enqueued although its annualized rate is not at least the
    floor.  Stored as the prior, it makes the change of the next update NaN
    as well, and that update is accepted although its change is not at
    least ten percent. *)
Theorem nan_rate_is_accepted (clock : nat -> Z) :
  let self :=
    process_websocket_message (Some (JList [ticker "XYZUSDT" nan])) "binance"
      clock (start_monitoring __init__) in
  let self' :=
    process_websocket_message (Some payload_a) "binance"
      (fun _ => (clock 0%nat + minute)%Z) self in
  update_queue self = [0] /\
  (apr <$> heap self !! 0) = Some nan /\
  (min_apr_threshold bot_config <=? nan)%float = false /\
  update_queue self' = [0; 1] /\
  (change_percent <$> heap self' !! 1) = Some nan /\
  (10 <=? nan)%float = false.
Proof.
  set (u0 := sample_update nan (clock 0%nat)).
  set (u1 := sample_update (0.001 * 100)%float (clock 0%nat + minute)).
  assert (funding_updates "binance" clock (JList [ticker "XYZUSDT" nan]) = [u0])
    as Hu0 by by vm_compute.
  assert (funding_updates "binance" (fun _ => (clock 0%nat + minute)%Z) payload_a
          = [u1]) as Hu1 by by vm_compute.
  intros self self'.
  assert (self = put 0 (with_last_funding_data {[ "XYZ_Binance" := 0 ]}
                          (with_heap [u0] (start_monitoring __init__))))
    as Hself.
  { unfold self. rewrite (process_single_update _ _ _ _ _ Hu0). cbn zeta.
    by rewrite (should_process_update_first 0 _ u0). }
  clearbody self. subst self.
  assert (self' =
          put 1 (with_last_funding_data {[ "XYZ_Binance" := 1 ]}
                   (with_heap [u0; set_change_percent nan u1]
                      (put 0 (start_monitoring __init__))))) as Hself'.
  { unfold self'. rewrite (process_single_update _ _ _ _ _ Hu1). cbn zeta.
    rewrite (should_process_update_change 1 _ u1 0 u0);
      [|done|done|done|done|cbn; lia].
    cbv zeta.
    assert (change_of u1 u0 = nan) as -> by by vm_compute.
    change (nan <? 10)%float with false. cbn [fst snd].
    unfold put, with_last_funding_data, with_heap. cbn.
    change (key_of u1) with "XYZ_Binance". by rewrite insert_singleton_eq. }
  clearbody self'. subst self'.
  repeat split; done.
Qed.

(** * Further properties of the parsers *)

Lemma parse_item_Append_fields symbol_field old1 old2 rate_field label now
    item u :
  parse_item symbol_field old1 old2 rate_field label now item = Append u ->
  well_built u /\ exchange u = label /\ timestamp u = now.
Proof.
  unfold parse_item.
  destruct item as [| | | | |?|members]; try discriminate.
  destruct (default _ _) as [| | | |s| |]; try discriminate.
  destruct (in_TOP_50_COINS _) eqn:Htop; [discriminate|].
  destruct (py_float _) as [x|]; [|discriminate].
  destruct (Py.float_nonzero x); [|discriminate].
  destruct (__post_init__ _ _ _ _ _) as [u'|] eqn:Hu; [|discriminate].
  intros [= <-].
  destruct (post_init_Ok _ _ _ _ _ _ Hu)
    as (Hsym & Hrate & Hex & Htime & Hchange & Hapr & _ & Hlen).
  change (0 =? 0)%float with true in Hapr.
  unfold well_built. by rewrite Hsym, Hrate, Hapr.
Qed.

Lemma funding_updates_label exchange0 clock data :
  Forall (fun u => well_built u /\ exchange u = exchange_label exchange0)
    (funding_updates exchange0 clock data).
Proof.
  unfold funding_updates, exchange_label.
  repeat (destruct (String.eqb exchange0 _); [
    unfold parse_binance_data, parse_bybit_data, parse_okx_data,
      parse_gateio_data, parse_bitget_data;
    try (destruct data; try constructor);
    apply parse_items_Forall; intros now item u Hu;
    by destruct (parse_item_Append_fields _ _ _ _ _ _ _ _ Hu) as (? & ? & _)|]).
  constructor.
Qed.

(** Every update a parser returns names an instrument outside the excluded
    set by at least two characters, carries the annualized rate derived
    from its rate and no change yet, and is labelled with the exchange of
    the parser that built it. *)
Theorem parser_output_is_well_built exchange0 clock data u :
  u ∈ funding_updates exchange0 clock data ->
  well_built u /\ exchange u = exchange_label exchange0.
Proof.
  intros Hu. pose proof (funding_updates_label exchange0 clock data) as Hall.
  rewrite Forall_forall in Hall. by apply Hall.
Qed.

Lemma parse_items_skip body clock k pre item post :
  (∀ now, body now item = Skip) ->
  parse_items body clock k (pre ++ item :: post)
    = parse_items body clock k (pre ++ post).
Proof.
  intros Hskip. revert k.
  induction pre as [|first pre IH]; intros k; cbn.
  - by rewrite Hskip.
  - destruct (body (clock k) first); [apply IH | f_equal; apply IH | done].
Qed.

(** An entry that is an object whose symbol member is text or absent
    leaves no trace when its instrument is excluded, or when its rate is
    absent or converts to zero: the parser returns what it returns for
    the payload without that entry.  (An entry that is not an object, or
    whose symbol member is not text, raises instead, whatever its
    rate.) *)
Theorem skipped_entry_is_transparent symbol_field old1 old2 rate_field label
    clock k pre members post s :
  default (JStr EmptyString) (dict_get symbol_field members) = JStr s ->
  in_TOP_50_COINS (Py.str_remove (Py.str_remove s old1) old2) = true \/
  (∃ x, extracted_rate rate_field (JDict members) = Py.Ok x /\
        Py.float_nonzero x = false) ->
  parse_items (parse_item symbol_field old1 old2 rate_field label) clock k
    (pre ++ JDict members :: post)
  = parse_items (parse_item symbol_field old1 old2 rate_field label) clock k
      (pre ++ post).
Proof.
  intros Hs Hskip. apply parse_items_skip. intros now.
  unfold parse_item. rewrite Hs.
  destruct (in_TOP_50_COINS _); [done|].
  destruct Hskip as [?|(x & Hx & Hzero)]; [done|].
  cbn in Hx. by rewrite Hx, Hzero.
Qed.

(** ** The filter key *)

Lemma list_ascii_of_string_app (s t : string) :
  list_ascii_of_string (s ++ t)
    = (list_ascii_of_string s ++ list_ascii_of_string t)%list.
Proof. induction s as [|c s IH]; simpl; [done|by rewrite IH]. Qed.

Lemma list_ascii_of_string_inj (s t : string) :
  list_ascii_of_string s = list_ascii_of_string t -> s = t.
Proof.
  intros Heq. rewrite <- (string_of_list_ascii_of_string s),
    <- (string_of_list_ascii_of_string t). by rewrite Heq.
Qed.

Lemma key_of_label_inj (s1 s2 l1 l2 : string) :
  l1 ∈ ["Binance"; "Bybit"; "OKX"; "Gate.io"; "Bitget"] ->
  l2 ∈ ["Binance"; "Bybit"; "OKX"; "Gate.io"; "Bitget"] ->
  s1 ++ "_" ++ l1 = s2 ++ "_" ++ l2 -> s1 = s2 /\ l1 = l2.
Proof.
  intros Hl1 Hl2 Heq.
  apply (f_equal list_ascii_of_string) in Heq.
  rewrite !list_ascii_of_string_app in Heq.
  apply (f_equal (@rev ascii)) in Heq. rewrite !rev_app_distr in Heq.
  repeat (apply elem_of_cons in Hl1 as [->|Hl1]);
    [| | | | |by apply elem_of_nil in Hl1];
    (repeat (apply elem_of_cons in Hl2 as [->|Hl2]);
       [| | | | |by apply elem_of_nil in Hl2]);
    cbn in Heq; try discriminate Heq;
    (split; [|done]);
    apply list_ascii_of_string_inj;
    rewrite <- (rev_involutive (list_ascii_of_string s1)),
      <- (rev_involutive (list_ascii_of_string s2));
    f_equal; congruence.
Qed.

(** Two updates returned by the parsers are filed under the same key of
    the filter table only if they agree on symbol and on exchange: the
    text key stands for the pair. *)
Theorem filter_key_is_symbol_and_exchange exchange1 exchange2 clock1 clock2
    data1 data2 u1 u2 :
  u1 ∈ funding_updates exchange1 clock1 data1 ->
  u2 ∈ funding_updates exchange2 clock2 data2 ->
  key_of u1 = key_of u2 ->
  symbol u1 = symbol u2 /\ exchange u1 = exchange u2.
Proof.
  intros Hu1 Hu2 Hkey.
  assert (∀ ex clock data u, u ∈ funding_updates ex clock data ->
            exchange u ∈ ["Binance"; "Bybit"; "OKX"; "Gate.io"; "Bitget"])
    as Hlabel.
  { clear. intros ex clock data u Hu.
    pose proof (funding_updates_label ex clock data) as Hall.
    rewrite Forall_forall in Hall. destruct (Hall u Hu) as [_ ->].
    unfold funding_updates, exchange_label in *.
    repeat (destruct (String.eqb ex _); [set_solver|]).
    by apply elem_of_nil in Hu. }
  apply key_of_label_inj; [by eapply Hlabel..|done].
Qed.

(** ** Subscriptions *)

(** The sources the monitor is configured with, the exchanges
    [subscribe_funding_rates] has a message for, and the exchanges whose
    messages [process_websocket_message] has a parser for, are the same
    five: no configured source goes unsubscribed or unparsed, and a
    message of any other exchange yields no update. *)
Theorem sources_subscriptions_and_parsers_agree exchange0 :
  (is_Some (subscribe_funding_rates exchange0)
   <-> exchange0 ∈ websocket_sources.*1) /\
  ((∃ clock data, funding_updates exchange0 clock data ≠ [])
   <-> exchange0 ∈ websocket_sources.*1).
Proof.
  assert (∀ name, name ∈ websocket_sources.*1 ->
            is_Some (subscribe_funding_rates name) /\
            funding_updates name (fun _ => 0%Z) (sample_payload name) ≠ [])
    as Hknown.
  { intros name Hname. cbn in Hname.
    repeat (apply elem_of_cons in Hname as [->|Hname]);
      [| | | | |by apply elem_of_nil in Hname];
      (split; [by eexists|by vm_compute]). }
  destruct (decide (exchange0 ∈ websocket_sources.*1)) as [Hin|Hout].
  - destruct (Hknown _ Hin) as [Hsub Hparse]. split; [done|].
    split; [done|]. intros _. by eexists _, _.
  - assert (subscribe_funding_rates exchange0 = None /\
            ∀ clock data, funding_updates exchange0 clock data = [])
      as [Hsub Hparse].
    { cbn in Hout. unfold subscribe_funding_rates, funding_updates.
      destruct (String.eqb_spec exchange0 "binance") as [->|_];
        [exfalso; apply Hout; set_solver|].
      destruct (String.eqb_spec exchange0 "bybit") as [->|_];
        [exfalso; apply Hout; set_solver|].
      destruct (String.eqb_spec exchange0 "okx") as [->|_];
        [exfalso; apply Hout; set_solver|].
      destruct (String.eqb_spec exchange0 "gateio") as [->|_];
        [exfalso; apply Hout; set_solver|].
      destruct (String.eqb_spec exchange0 "bitget") as [->|_];
        [exfalso; apply Hout; set_solver|].
      done. }
    split.
    + rewrite Hsub. split; [by intros [? ?]|done].
    + split; [|done]. intros (clock & data & Hne). by destruct Hne.
Qed.

(** * Invariants of the monitor *)

Lemma should_process_update_true update self self1 :
  should_process_update update self = (true, self1) ->
  ∃ u, heap self !! update = Some u /\
       (apr u <? min_apr_threshold bot_config)%float = false /\
       last_funding_data self1
         = <[key_of u := update]> (last_funding_data self) /\
       update_queue self1 = update_queue self /\
       total_updates self1 = total_updates self /\
       ∃ c, heap self1 !! update = Some (set_change_percent c u).
Proof.
  unfold should_process_update.
  destruct (heap self !! update) as [u|] eqn:Hu; [|discriminate].
  destruct (apr u <? _)%float eqn:Hapr; [discriminate|].
  destruct (last_funding_data self !! key_of u) as [last|].
  - destruct (heap self !! last) as [last_update|]; [|discriminate].
    destruct (_ <? minute)%Z; [discriminate|].
    destruct (_ <? 10)%float; [discriminate|].
    intros [= <-]. exists u. repeat split; try done.
    eexists. apply list_lookup_insert_eq. by eapply lookup_lt_Some.
  - intros [= <-]. exists u. repeat split; try done.
    exists (change_percent u). by rewrite set_change_percent_same.
Qed.

Lemma should_process_update_false update self self1 :
  should_process_update update self = (false, self1) ->
  last_funding_data self1 = last_funding_data self /\
  update_queue self1 = update_queue self /\
  total_updates self1 = total_updates self.
Proof.
  unfold should_process_update. repeat case_match; by intros [= <-].
Qed.

Lemma should_process_update_keeps_live update self l u :
  heap self !! l = Some u ->
  ∃ u', heap (should_process_update update self).2 !! l = Some u' /\
        key_of u' = key_of u /\ apr u' = apr u.
Proof.
  intros Hl.
  destruct (should_process_update_object update self l u Hl) as (c & Hc & _).
  by exists (set_change_percent c u).
Qed.

Lemma should_process_update_sound update self :
  table_sound self -> queue_sound self ->
  table_sound (should_process_update update self).2 /\
  queue_sound (should_process_update update self).2.
Proof.
  intros Htable Hqueue.
  pose proof (should_process_update_keeps_live update self) as Hlive.
  destruct (should_process_update update self) as [[] self1] eqn:Hspu;
    cbn [snd] in *.
  - destruct (should_process_update_true _ _ _ Hspu)
      as (u & Hu & Hapr & Htab & Hque & _ & c & Hc).
    split.
    + intros key l Hkey. rewrite Htab in Hkey.
      destruct (decide (key_of u = key)) as [<-|Hne].
      * rewrite lookup_insert_eq in Hkey. injection Hkey as <-.
        by exists (set_change_percent c u).
      * rewrite lookup_insert_ne in Hkey by done.
        destruct (Htable _ _ Hkey) as (u0 & Hu0 & <- & Hapr0).
        destruct (Hlive _ _ Hu0) as (u' & Hu' & Hk & Ha).
        exists u'. by rewrite Hk, Ha.
    + intros l Hl. rewrite Hque in Hl.
      destruct (Hqueue _ Hl) as (u0 & Hu0 & Hapr0).
      destruct (Hlive _ _ Hu0) as (u' & Hu' & _ & Ha).
      exists u'. by rewrite Ha.
  - destruct (should_process_update_false _ _ _ Hspu) as (Htab & Hque & _).
    split.
    + intros key l Hkey. rewrite Htab in Hkey.
      destruct (Htable _ _ Hkey) as (u0 & Hu0 & <- & Hapr0).
      destruct (Hlive _ _ Hu0) as (u' & Hu' & Hk & Ha).
      exists u'. by rewrite Hk, Ha.
    + intros l Hl. rewrite Hque in Hl.
      destruct (Hqueue _ Hl) as (u0 & Hu0 & Hapr0).
      destruct (Hlive _ _ Hu0) as (u' & Hu' & _ & Ha).
      exists u'. by rewrite Ha.
Qed.

Lemma enqueue_updates_sound updates self :
  table_sound self -> queue_sound self ->
  table_sound (enqueue_updates updates self) /\
  queue_sound (enqueue_updates updates self).
Proof.
  revert self. induction updates as [|update rest IH]; intros self Ht Hq;
    [done|].
  cbn [enqueue_updates].
  destruct (should_process_update_sound update self Ht Hq) as [Ht1 Hq1].
  destruct (should_process_update update self) as [[] self1] eqn:Hspu;
    cbn [snd] in *; apply IH; try done.
  destruct (should_process_update_true _ _ _ Hspu)
    as (u & _ & Hapr & _ & _ & _ & c & Hc).
  intros l Hl. cbn in Hl. apply elem_of_app in Hl as [Hl|Hl].
  - by apply Hq1.
  - apply list_elem_of_singleton in Hl as ->.
    by exists (set_change_percent c u).
Qed.

Lemma step_sound self self' :
  step self self' ->
  table_sound self /\ queue_sound self ->
  table_sound self' /\ queue_sound self'.
Proof.
  intros [[data|] exchange0 clock s|s|now s] [Ht Hq]; [|done| |].
  - cbn. apply enqueue_updates_sound.
    + intros key l Hkey. destruct (Ht _ _ Hkey) as (u & Hu & Hrest).
      exists u. split; [|done]. cbn. by apply lookup_app_l_Some.
    + intros l Hl. destruct (Hq _ Hl) as (u & Hu & Hrest).
      exists u. split; [|done]. cbn. by apply lookup_app_l_Some.
  - split; [done|]. intros l Hl. cbn in Hl.
    apply Hq. rewrite <- (take_drop 10 (update_queue s)).
    apply elem_of_app. by right.
  - split; [|done]. intros key l Hkey. cbn in Hkey.
    rewrite lookup_foldr_delete in Hkey.
    destruct (decide (key ∈ keys_to_remove now s)); [done|]. by apply Ht.
Qed.

Lemma enqueue_updates_appends updates self :
  ∃ accepted,
    update_queue (enqueue_updates updates self)
      = (update_queue self ++ accepted)%list /\
    accepted `sublist_of` updates /\
    total_updates (enqueue_updates updates self)
      = total_updates self + length accepted /\
    size (last_funding_data (enqueue_updates updates self))
      <= size (last_funding_data self) + length accepted /\
    dom (last_funding_data self)
      ⊆ dom (last_funding_data (enqueue_updates updates self)).
Proof.
  clear float_of_str. revert self. induction updates as [|update rest IH]; intros self.
  - exists []. cbn. rewrite app_nil_r. repeat split; [done|lia..|done].
  - cbn [enqueue_updates].
    destruct (should_process_update update self) as [[] self1] eqn:Hspu.
    + destruct (should_process_update_true _ _ _ Hspu)
        as (u & _ & _ & Htab & Hque & Htot & _).
      destruct (IH (put update self1))
        as (accepted & Hq & Hsub & Ht & Hsize & Hdom).
      exists (update :: accepted). cbn in Hq, Ht, Hsize, Hdom.
      rewrite Hq, Ht, Hque, Htot, <- app_assoc. cbn [length].
      repeat split; [by apply sublist_skip|lia| |].
      * rewrite Htab in Hsize. rewrite map_size_insert in Hsize.
        destruct (last_funding_data self !! key_of u); cbn in Hsize; lia.
      * rewrite Htab, dom_insert_L in Hdom. set_solver.
    + destruct (should_process_update_false _ _ _ Hspu) as (Htab & Hque & Htot).
      destruct (IH self1) as (accepted & Hq & Hsub & Ht & Hsize & Hdom).
      exists accepted. rewrite Hq, Ht, Hque, Htot.
      rewrite Htab in Hsize, Hdom.
      repeat split; [by apply sublist_cons|done..].
Qed.

(** Processing a message only appends to the queue, and only updates
    created from that message, each at most once and in the order of the
    payload; the counter of updates grows by the number appended, and no
    key leaves the filter table. *)
Theorem ingestion_only_appends_new_updates message exchange0 clock self :
  let self' := process_websocket_message message exchange0 clock self in
  ∃ accepted,
    update_queue self' = (update_queue self ++ accepted)%list /\
    accepted `sublist_of`
      seq (length (heap self)) (length (heap self') - length (heap self)) /\
    total_updates self' = total_updates self + length accepted /\
    dom (last_funding_data self) ⊆ dom (last_funding_data self').
Proof.
  intros self'.
  pose proof (process_websocket_message_heap_length message exchange0 clock
                self) as Hlen.
  fold self' in Hlen. rewrite Hlen, Nat.add_comm, Nat.add_sub.
  unfold self'. destruct message as [data|]; cbn [process_websocket_message].
  - destruct (enqueue_updates_appends
                (seq (length (heap self))
                   (length (funding_updates exchange0 clock data)))
                (with_heap (heap self ++ funding_updates exchange0 clock data)
                   self))
      as (accepted & Hq & Hsub & Ht & _ & Hdom).
    by exists accepted.
  - exists []. rewrite app_nil_r. cbn. repeat split; [|lia|done].
    apply sublist_nil_l.
Qed.

Lemma should_process_update_alerts_sent update self :
  alerts_sent (should_process_update update self).2 = alerts_sent self.
Proof. unfold should_process_update. by repeat case_match. Qed.

Lemma enqueue_updates_alerts_sent updates self :
  alerts_sent (enqueue_updates updates self) = alerts_sent self.
Proof.
  revert self. induction updates as [|update rest IH]; intros self; [done|].
  cbn [enqueue_updates].
  pose proof (should_process_update_alerts_sent update self) as Hsame.
  destruct (should_process_update update self) as [[] self1];
    cbn in Hsame; by rewrite IH.
Qed.

Lemma ingestion_appends message exchange0 clock self :
  ∃ accepted,
    update_queue (process_websocket_message message exchange0 clock self)
      = (update_queue self ++ accepted)%list /\
    total_updates (process_websocket_message message exchange0 clock self)
      = total_updates self + length accepted /\
    alerts_sent (process_websocket_message message exchange0 clock self)
      = alerts_sent self.
Proof.
  destruct message as [data|]; cbn [process_websocket_message].
  - destruct (enqueue_updates_appends
                (seq (length (heap self))
                   (length (funding_updates exchange0 clock data)))
                (with_heap (heap self ++ funding_updates exchange0 clock data)
                   self))
      as (accepted & Hq & _ & Ht & _).
    exists accepted. by rewrite enqueue_updates_alerts_sent.
  - exists []. rewrite app_nil_r. cbn. repeat split. lia.
Qed.

Lemma filter_length_le {A} (f : A -> bool) (l : list A) :
  length (List.filter f l) <= length l.
Proof.
  induction l as [|x l IH]; [done|]. cbn. destruct (f x); cbn; lia.
Qed.

(** A step of the monitor with alerts is a step without them, up to the
    counter of alerts, which grows by no more than the queue shrinks. *)
Lemma step_alerting_step self self' :
  step_alerting self self' ->
  ∃ self1 n,
    step self self1 /\ self' = with_alerts_sent n self1 /\
    alerts_sent self <= n /\
    n + length (update_queue self1)
      <= alerts_sent self + length (update_queue self)
         + (total_updates self1 - total_updates self).
Proof.
  intros [message exchange0 clock s|callback s|now s].
  - exists (process_websocket_message message exchange0 clock s),
      (alerts_sent s).
    split; [constructor|].
    assert (alerts_sent (process_websocket_message message exchange0 clock s)
            = alerts_sent s /\
            length (update_queue
                      (process_websocket_message message exchange0 clock s))
            = length (update_queue s)
              + (total_updates
                   (process_websocket_message message exchange0 clock s)
                 - total_updates s)) as [Halerts Hqueue].
    { destruct (ingestion_appends message exchange0 clock s)
        as (accepted & Hq & Ht & Ha).
      split; [done|]. rewrite Hq, Ht, length_app. lia. }
    split; [|lia].
    rewrite <- Halerts.
    by destruct (process_websocket_message message exchange0 clock s).
  - unfold process_updates_whole_turn, process_updates_turn.
    set (self1 := with_update_queue (drop 10 (update_queue s)) s).
    assert (step s self1) as Hstep by apply (step_consume s).
    assert (length (take 10 (update_queue s)) + length (update_queue self1)
            = length (update_queue s)) as Hlen.
    { cbn. rewrite <- length_app. by rewrite take_drop. }
    assert (self1 = with_alerts_sent (alerts_sent s) self1) as Hsame
      by (by destruct s).
    destruct (take 10 (update_queue s)) as [|first batch] eqn:Hbatch.
    { exists self1, (alerts_sent s). repeat split; [done..|lia|cbn in *; lia]. }
    unfold process_funding_updates.
    pose proof (filter_length_le (is_high_apr (heap self1)) (first :: batch))
      as Hhigh.
    destruct (List.filter (is_high_apr (heap self1)) (first :: batch))
      as [|high highs].
    { exists self1, (alerts_sent s). repeat split; [done..|lia|cbn in *; lia]. }
    destruct callback; cbn [send_alerts].
    + exists self1, (alerts_sent s).
      repeat split; [done..|lia|cbn in *; lia].
    + exists self1, (alerts_sent self1 + length (high :: highs)).
      repeat split; [done|cbn; lia|cbn in *; lia].
    + exists self1, (alerts_sent s).
      repeat split; [done..|lia|cbn in *; lia].
  - exists (periodic_cleanup_turn now s), (alerts_sent s).
    split; [constructor|]. split; [by destruct s|]. cbn. lia.
Qed.

(** In every reachable state the filter table and the queue hold only
    live updates: an entry of the table is an update filed under its own
    key, and neither holds an update whose annualized rate was under the
    floor.  The lookups of the filter, of the sweep and of the consumer
    never miss. *)
Theorem table_and_queue_are_sound self :
  reachable_alerting self -> table_sound self /\ queue_sound self.
Proof.
  intros Hreach.
  apply (rtc_ind_r (R := step_alerting)
           (fun s => table_sound s /\ queue_sound s)
           (start_monitoring __init__)); [| |exact Hreach].
  - split; [intros key l Hkey|intros l Hl]; [done|by apply elem_of_nil in Hl].
  - intros s s' _ Hstep IH.
    destruct (step_alerting_step _ _ Hstep) as (s1 & n & Hs1 & -> & _).
    by destruct (step_sound _ _ Hs1 IH).
Qed.

(** ** The counters, statement by statement *)

Lemma micro_counts s s' :
  micro s s' -> counters_consistent s -> counters_consistent s'.
Proof.
  unfold counters_consistent.
  intros [data exchange0 clock self a Hi
         |update rest self self1 a Hi Hspu
         |update rest self self1 a Hi Hspu
         |update rest self a Hi
         |rest self a Hi
         |self a Hi
         |self a Hc
         |update rest updates_batch turns self a Hc Hqueue
         |callback_set updates_batch turns self a Hc Hend
         |high_apr_updates self a Hc
         |high_apr_updates self a Hc
         |now self a Hs
         |key keys self a Hs
         |self a Hs]; cbn [fst snd ingesting consuming cleaning
                            with_ingesting with_consuming with_cleaning];
    intros [Hq Ht].
  - rewrite Hi in Hq, Ht. cbn in *. lia.
  - destruct (should_process_update_false _ _ _ Hspu) as (-> & -> & ->).
    pose proof (should_process_update_alerts_sent update self) as Ha.
    rewrite Hspu in Ha. cbn in Ha. rewrite Ha.
    rewrite Hi in Hq, Ht. cbn in *. lia.
  - destruct (should_process_update_true _ _ _ Hspu)
      as (u & _ & _ & -> & -> & -> & _).
    pose proof (should_process_update_alerts_sent update self) as Ha.
    rewrite Hspu in Ha. cbn in Ha. rewrite Ha.
    rewrite Hi in Hq, Ht. cbn in *.
    split; [lia|]. rewrite map_size_insert.
    destruct (last_funding_data self !! key_of u); cbn; lia.
  - rewrite Hi in Hq, Ht. cbn in *. rewrite length_app. cbn. lia.
  - rewrite Hi in Hq, Ht. cbn in *. lia.
  - rewrite Hi in Hq, Ht. cbn in *. lia.
  - rewrite Hc in Hq. cbn in *. lia.
  - rewrite Hc, Hqueue in Hq. cbn in *. rewrite length_app. cbn. lia.
  - rewrite Hc in Hq. cbn in *. split; [|done].
    unfold after_batch.
    pose proof (filter_length_le (is_high_apr (heap self)) updates_batch)
      as Hhigh.
    destruct (List.filter (is_high_apr (heap self)) updates_batch)
      as [|high highs]; [cbn; lia|].
    destruct callback_set; cbn in *; lia.
  - rewrite Hc in Hq. cbn in *. lia.
  - rewrite Hc in Hq. cbn in *. lia.
  - done.
  - cbn. split; [done|]. rewrite map_size_delete.
    destruct (last_funding_data self !! key); cbn; lia.
  - done.
Qed.

(** The statements of one message, run without interruption, are
    [process_websocket_message]; those of one turn of the consumer are
    [process_updates_whole_turn]; those of one sweep are
    [periodic_cleanup_turn]. *)
Lemma micro_enqueue_updates updates self a :
  rtc micro (self, with_ingesting (Filtering updates) a)
    (enqueue_updates updates self, with_ingesting (Filtering []) a).
Proof.
  revert self. induction updates as [|update rest IH]; intros self; [done|].
  cbn [enqueue_updates].
  destruct (should_process_update update self) as [[] self1] eqn:Hspu.
  - eapply rtc_l; [by eapply (micro_accepted update rest self self1)|].
    eapply rtc_l; [by eapply (micro_put update rest self1)|].
    eapply rtc_l; [by eapply (micro_count rest)|].
    apply (IH (put update self1)).
  - eapply rtc_l; [by eapply (micro_rejected update rest self self1)|].
    apply (IH self1).
Qed.

Lemma micro_collect turns updates_batch self a :
  ∃ turns',
    rtc micro (self, with_consuming (Collecting updates_batch turns) a)
      (with_update_queue (drop turns (update_queue self)) self,
       with_consuming
         (Collecting (updates_batch ++ take turns (update_queue self)) turns')
         a) /\
    (turns' = 0 \/ drop turns (update_queue self) = []).
Proof.
  revert updates_batch self.
  induction turns as [|turns IH]; intros updates_batch self.
  - exists 0. rewrite take_0, drop_0, app_nil_r. split; [|by left].
    by destruct self.
  - destruct (update_queue self) as [|update rest] eqn:Hqueue.
    + exists (S turns). cbn. rewrite app_nil_r. split; [|by right].
      rewrite <- Hqueue. by destruct self.
    + destruct (IH (updates_batch ++ [update])%list
                  (with_update_queue rest self)) as (turns' & Hrun & Hend).
      exists turns'. cbn [take drop]. cbn in Hrun, Hend.
      rewrite <- app_assoc in Hrun. split; [|done].
      eapply rtc_l; [by eapply (micro_get update rest updates_batch turns)|].
      exact Hrun.
Qed.

Lemma foldr_delete_delete (t : gmap string nat) (keys : list string) key :
  foldr delete (delete key t) keys = delete key (foldr delete t keys).
Proof.
  clear float_of_str. induction keys as [|k keys IH]; cbn; [done|].
  rewrite IH. apply delete_delete.
Qed.

Lemma micro_deletes keys self a :
  rtc micro (self, with_cleaning (Deleting keys) a)
    (with_last_funding_data (foldr delete (last_funding_data self) keys) self,
     with_cleaning (Deleting []) a).
Proof.
  revert self. induction keys as [|key keys IH]; intros self.
  - cbn. by destruct self.
  - eapply rtc_l; [by eapply (micro_delete key keys)|].
    pose proof (IH (with_last_funding_data
                      (delete key (last_funding_data self)) self)) as Hrun.
    cbn in Hrun. rewrite foldr_delete_delete in Hrun. exact Hrun.
Qed.

Lemma step_alerting_micro self self' :
  step_alerting self self' -> rtc micro (self, idle) (self', idle).
Proof.
  intros [[data|] exchange0 clock s|callback s|now s].
  - cbn [process_websocket_message].
    eapply rtc_l; [by apply (micro_message data exchange0 clock)|].
    eapply rtc_trans; [apply micro_enqueue_updates|].
    apply rtc_once. by apply micro_message_done.
  - done.
  - eapply rtc_l; [by apply micro_wake|].
    destruct (micro_collect 10 [] s idle) as (turns' & Hrun & Hend).
    eapply rtc_trans; [exact Hrun|]. cbn [app].
    unfold process_updates_whole_turn, process_updates_turn.
    set (self1 := with_update_queue (drop 10 (update_queue s)) s).
    assert (∀ callback_set,
              micro (self1, with_consuming
                              (Collecting (take 10 (update_queue s)) turns')
                              idle)
                (self1, with_consuming
                          (after_batch callback_set (heap self1)
                             (take 10 (update_queue s))) idle)) as Hbatch.
    { intros callback_set.
      exact (micro_batch callback_set (take 10 (update_queue s)) turns' self1
               (with_consuming (Collecting (take 10 (update_queue s)) turns')
                  idle) eq_refl Hend). }
    destruct (take 10 (update_queue s)) as [|first batch] eqn:Htake.
    { apply rtc_once. apply (Hbatch false). }
    unfold process_funding_updates.
    unfold after_batch in Hbatch.
    destruct (List.filter (is_high_apr (heap self1)) (first :: batch))
      as [|high highs].
    { apply rtc_once. apply (Hbatch false). }
    destruct callback; cbn [send_alerts].
    + apply rtc_once. apply (Hbatch false).
    + eapply rtc_l; [apply (Hbatch true)|].
      apply rtc_once.
      exact (micro_callback_returns (high :: highs) self1
               (with_consuming (Alerting (high :: highs)) idle) eq_refl).
    + eapply rtc_l; [apply (Hbatch true)|].
      apply rtc_once.
      exact (micro_callback_raises (high :: highs) self1
               (with_consuming (Alerting (high :: highs)) idle) eq_refl).
  - eapply rtc_l; [by apply (micro_sweep now)|].
    eapply rtc_trans; [apply micro_deletes|].
    apply rtc_once. by apply micro_sweep_done.
Qed.

Lemma reachable_alerting_micro self :
  reachable_alerting self -> reachable_micro (self, idle).
Proof.
  intros Hreach.
  apply (rtc_ind_r (R := step_alerting) (fun s => reachable_micro (s, idle))
           (start_monitoring __init__)); [apply rtc_refl| |exact Hreach].
  intros s s' _ Hstep IH.
  eapply rtc_trans; [exact IH|]. by apply step_alerting_micro.
Qed.

(** At every statement of the running monitor, and so in every state
    another thread can find it in: the alerts sent, the updates the
    consumer holds and the updates in the queue together exceed the number
    of updates counted by no more than the one update that is in the
    queue and not counted yet, and the tracked keys exceed it by no more
    than the one update that is accepted and not counted yet. *)
Theorem statistics_are_consistent self a :
  reachable_micro (self, a) ->
  alerts_sent self + in_hand (consuming a) + length (update_queue self)
    <= total_updates self + queued_uncounted (ingesting a) /\
  size (last_funding_data self)
    <= total_updates self + accepted_uncounted (ingesting a).
Proof.
  intros Hreach.
  apply (rtc_ind_r (R := micro) counters_consistent
           (start_monitoring __init__, idle)
           ltac:(split; cbn; [lia|rewrite map_size_empty; lia])
           ltac:(intros s s' _ Hstep IH; by eapply micro_counts)
           (self, a) Hreach).
Qed.

(** * Further properties of the supervisor *)

Lemma monitor_loop_unfold exchange0 script reconnect_count attempts self :
  monitor_loop exchange0 script reconnect_count attempts self =
  if andb (is_running self)
       (reconnect_count <? max_reconnects websocket_config)%nat
  then
    match script with
    | [] => Waiting reconnect_count attempts self
    | ConnectRaises closed :: rest =>
        monitor_loop exchange0 rest (S reconnect_count) (S attempts)
          (lose_connection closed self)
    | Stream messages ending :: rest =>
        let self1 := with_connections ({[exchange0]} ∪ connections self) self in
        let self2 := receive exchange0 messages self1 in
        match ending with
        | None => monitor_loop exchange0 rest 0 (S attempts) self2
        | Some closed =>
            monitor_loop exchange0 rest 1 (S attempts)
              (lose_connection closed self2)
        end
    | StopRequested :: rest =>
        monitor_loop exchange0 rest reconnect_count attempts
          (stop_monitoring self)
    end
  else
    Returned (max_reconnects websocket_config <=? reconnect_count)%nat attempts
      (with_connections (connections self ∖ {[exchange0]}) self).
Proof. by destruct script. Qed.

Lemma should_process_update_is_running update self :
  is_running (should_process_update update self).2 = is_running self.
Proof. unfold should_process_update. by repeat case_match. Qed.

Lemma enqueue_updates_is_running updates self :
  is_running (enqueue_updates updates self) = is_running self.
Proof.
  revert self. induction updates as [|update rest IH]; intros self; [done|].
  cbn [enqueue_updates].
  pose proof (should_process_update_is_running update self) as Hrun.
  destruct (should_process_update update self) as [[] self1];
    cbn in Hrun; by rewrite IH.
Qed.

Lemma receive_is_running exchange0 messages self :
  is_running (receive exchange0 messages self) = is_running self.
Proof.
  revert self. induction messages as [|[message clock] rest IH]; intros self;
    [done|].
  cbn. unfold receive in IH. rewrite IH.
  destruct message as [data|]; [|done].
  cbn. by rewrite enqueue_updates_is_running.
Qed.

Lemma monitor_loop_returned exchange0 script reconnect_count attempts self
    failed attempts' self' :
  monitor_loop exchange0 script reconnect_count attempts self
    = Returned failed attempts' self' ->
  (exchange0 ∉ connections self') /\
  (reconnect_count <= attempts ->
   failed = true -> max_reconnects websocket_config <= attempts') /\
  (failed = true ->
   max_reconnects websocket_config <= reconnect_count + failures script).
Proof.
  revert reconnect_count attempts self.
  induction script as [|h rest IH]; intros reconnect_count attempts self;
    rewrite monitor_loop_unfold;
    destruct (andb (is_running self) _) eqn:Hcond.
  - discriminate.
  - intros [= <- <- <-]. split; [cbn [connections with_connections]; set_solver|].
    split; [intros Hle Hf|intros Hf];
      (assert ((max_reconnects websocket_config <=? reconnect_count)%nat = true)
         as Hmax by exact Hf);
      apply Nat.leb_le in Hmax; lia.
  - destruct h as [closed|messages [closed|]|]; cbn zeta; intros Hloop;
      destruct (IH _ _ _ Hloop) as (Hout & Hatt & Hfail);
      (split; [done|]); unfold failures in *;
      cbn [List.filter is_failure length] in *;
      (split; [intros Hle Hf; apply Hatt; [lia|done]
              |intros Hf; specialize (Hfail Hf); lia]).
  - intros [= <- <- <-]. split; [cbn [connections with_connections]; set_solver|].
    split; [intros Hle Hf|intros Hf];
      (assert ((max_reconnects websocket_config <=? reconnect_count)%nat = true)
         as Hmax by exact Hf);
      apply Nat.leb_le in Hmax; lia.
Qed.

(** Whenever the supervisor returns, the exchange is no longer among the
    connections; and it gives up only after at least [max_reconnects]
    calls of [connect], at least that many of which, or of the streams
    they opened, ended by raising. *)
Theorem supervisor_gives_up_only_after_enough_failures exchange0 script self
    failed attempts self' :
  monitor_exchange exchange0 script self = Returned failed attempts self' ->
  (exchange0 ∉ connections self') /\
  (failed = true ->
   max_reconnects websocket_config <= attempts /\
   max_reconnects websocket_config <= failures script).
Proof.
  intros Hrun. unfold monitor_exchange in Hrun.
  destruct (monitor_loop_returned _ _ _ _ _ _ _ _ Hrun)
    as (Hout & Hatt & Hfail).
  split; [done|]. intros Hf. split; [by apply Hatt|].
  by apply Hfail.
Qed.

Lemma monitor_loop_failing_prefix exchange0 closeds rest reconnect_count
    attempts self :
  is_running self = true ->
  reconnect_count + length closeds <= max_reconnects websocket_config ->
  ∃ self1,
    monitor_loop exchange0 (map ConnectRaises closeds ++ rest)
      reconnect_count attempts self
    = monitor_loop exchange0 rest (reconnect_count + length closeds)
        (attempts + length closeds) self1 /\
    is_running self1 = true.
Proof.
  revert reconnect_count attempts self.
  induction closeds as [|closed closeds IH];
    intros reconnect_count attempts self Hrun Hcount; cbn [length map app] in *.
  - exists self. by rewrite !Nat.add_0_r.
  - rewrite monitor_loop_connect_raises by (done || lia).
    destruct (IH (S reconnect_count) (S attempts) (lose_connection closed self))
      as (self1 & Hloop & Hrun1).
    + by rewrite lose_connection_is_running.
    + lia.
    + exists self1. rewrite Hloop. split; [|done].
      f_equal; lia.
Qed.

(** A successful connection resets the count of failures.  Whatever
    number of failed attempts, below the limit, came before it: after a
    stream that ends by itself it takes [max_reconnects] further failures
    in a row to make the supervisor give up, and after a stream that is
    lost, which is itself the first failure, one less. *)
Theorem successful_connection_resets_the_count exchange0 earlier messages
    (ending : option bool) closeds rest self :
  is_running self = true ->
  length earlier < max_reconnects websocket_config ->
  length closeds + match ending with Some _ => 1 | None => 0 end
    = max_reconnects websocket_config ->
  ∃ self',
    monitor_exchange exchange0
      (map ConnectRaises earlier
         ++ Stream messages ending :: map ConnectRaises closeds ++ rest) self
    = Returned true (length earlier + 1 + length closeds) self' /\
    exchange0 ∉ connections self'.
Proof.
  intros Hrun Hearlier Hlen. unfold monitor_exchange.
  destruct (monitor_loop_failing_prefix exchange0 earlier
              (Stream messages ending :: map ConnectRaises closeds ++ rest)
              0 0 self Hrun) as (self1 & -> & Hrun1); [lia|].
  rewrite monitor_loop_unfold, Hrun1. cbn [andb Nat.add].
  destruct (Nat.ltb_spec (length earlier) (max_reconnects websocket_config))
    as [_|Hle]; [|lia].
  cbn zeta.
  set (self2 := receive exchange0 messages _).
  assert (is_running self2 = true) as Hrun2
    by (unfold self2; by rewrite receive_is_running).
  destruct ending as [closed|].
  - destruct (monitor_loop_exhausts exchange0 closeds rest 1
                (S (length earlier)) (lose_connection closed self2))
      as (self' & Hloop & Hconn).
    + by rewrite lose_connection_is_running.
    + lia.
    + exists self'. rewrite Hloop, Hconn. split; [f_equal; lia|set_solver].
  - destruct (monitor_loop_exhausts exchange0 closeds rest 0
                (S (length earlier)) self2) as (self' & Hloop & Hconn).
    + done.
    + lia.
    + exists self'. rewrite Hloop, Hconn. split; [f_equal; lia|set_solver].
Qed.





(** * Further properties of the sweep and of the consumer *)

Lemma lookup_periodic_cleanup_turn now self key :
  last_funding_data (periodic_cleanup_turn now self) !! key =
  match last_funding_data self !! key with
  | Some l => if is_old (heap self) (now - hour) (key, l) then None else Some l
  | None => None
  end.
Proof.
  cbn. rewrite lookup_foldr_delete.
  destruct (last_funding_data self !! key) as [l|] eqn:Hkey.
  - destruct (is_old (heap self) (now - hour) (key, l)) eqn:Hold.
    + rewrite decide_True; [done|].
      apply elem_of_keys_to_remove. by exists l.
    + rewrite decide_False; [done|].
      intros (l' & Hl' & Hold')%elem_of_keys_to_remove. congruence.
  - by destruct (decide _).
Qed.

(** Eviction resets the filter: once the sweep has removed the entry of a
    key, the next update of that key is accepted as a first sighting,
    whatever its change and however soon it comes, and it is not stamped. *)
Theorem eviction_resets_the_filter now self update u last last_update :
  heap self !! update = Some u ->
  (apr u <? min_apr_threshold bot_config)%float = false ->
  last_funding_data self !! key_of u = Some last ->
  heap self !! last = Some last_update ->
  (hour < now - timestamp last_update)%Z ->
  let swept := periodic_cleanup_turn now self in
  should_process_update update swept =
    (true, with_last_funding_data
             (<[key_of u := update]> (last_funding_data swept)) swept).
Proof.
  intros Hu Hapr Hkey Hlast Hage swept.
  apply should_process_update_first; [done..|].
  unfold swept. rewrite lookup_periodic_cleanup_turn, Hkey.
  unfold is_old. cbn. rewrite Hlast.
  by destruct (Z.ltb_spec (timestamp last_update) (now - hour)); [|lia].
Qed.

(** Sweeps compose: a sweep followed by a later sweep leaves the monitor
    as the later sweep alone does.  In particular a sweep repeated at the
    same time changes nothing more. *)
Theorem sweeps_compose now1 now2 self :
  (now1 <= now2)%Z ->
  periodic_cleanup_turn now2 (periodic_cleanup_turn now1 self)
    = periodic_cleanup_turn now2 self.
Proof.
  intros Hle.
  assert (last_funding_data
            (periodic_cleanup_turn now2 (periodic_cleanup_turn now1 self))
          = last_funding_data (periodic_cleanup_turn now2 self)) as Htable.
  { apply map_eq. intros key. rewrite !lookup_periodic_cleanup_turn.
    change (heap (periodic_cleanup_turn now1 self)) with (heap self).
    destruct (last_funding_data self !! key) as [l|]; [|done].
    unfold is_old. cbn.
    destruct (heap self !! l) as [old|] eqn:Hl; cbn; [|by rewrite Hl].
    destruct (Z.ltb_spec (timestamp old) (now1 - hour)) as [H1|H1];
      cbn; rewrite ?Hl; cbn;
      destruct (Z.ltb_spec (timestamp old) (now2 - hour)) as [H2|H2];
      try done; lia. }
  unfold periodic_cleanup_turn in *. unfold with_last_funding_data in *.
  cbn in *. by rewrite Htable.
Qed.

Lemma process_updates_turns_spec n self :
  (concat (process_updates_turns n self).1
     ++ update_queue (process_updates_turns n self).2)%list
    = update_queue self /\
  Forall (fun batch => length batch <= 10) (process_updates_turns n self).1 /\
  length (update_queue (process_updates_turns n self).2)
    = length (update_queue self) - 10 * n /\
  with_update_queue (update_queue self) (process_updates_turns n self).2
    = self.
Proof.
  revert self. induction n as [|n IH]; intros self.
  - cbn. repeat split; [constructor|lia|by destruct self].
  - cbn [process_updates_turns]. unfold process_updates_turn.
    set (self1 := with_update_queue (drop 10 (update_queue self)) self).
    destruct (IH self1) as (Hcat & Hlen & Hrest & Hself).
    destruct (process_updates_turns n self1) as [batches self2].
    cbn in *. repeat split.
    + rewrite <- app_assoc, Hcat. apply take_drop.
    + constructor; [|done]. rewrite length_take. lia.
    + rewrite Hrest, length_drop. lia.
    + apply (f_equal (with_update_queue (update_queue self))) in Hself.
      by destruct self, self2.
Qed.

(** The consumer loses nothing and keeps the order: after any number of
    turns, the batches it took, followed by what is still pending, are the
    queue it started from, and no batch holds more than ten updates. *)
Theorem consumer_conserves_the_queue n self :
  let '(batches, self') := process_updates_turns n self in
  (concat batches ++ update_queue self')%list = update_queue self /\
  Forall (fun batch => length batch <= 10) batches /\
  length (update_queue self') = length (update_queue self) - 10 * n.
Proof.
  destruct (process_updates_turns_spec n self) as (Hcat & Hlen & Hrest & _).
  by destruct (process_updates_turns n self).
Qed.

End Pipeline.

(** * Worked instances

    Each theorem above that has a premise is applied here to a concrete
    input, and each departure of the code from the specification is shown
    on one. *)

(** C2: the second entry is out of range (0.9 becomes 90 percent), so the
    payload cannot be read as a whole; the parser still returns the update
    it built from the first entry, not the empty list. *)
Lemma C2_counterexample :
  uninterpretable (binance_item no_text_rates)
    [ticker "XYZUSDT" 0.001; ticker "ABCUSDT" 0.9] /\
  parse_binance_data no_text_rates (fun _ => 0%Z)
    (JList [ticker "XYZUSDT" 0.001; ticker "ABCUSDT" 0.9])
  = [sample_update (0.001 * 100)%float 0].
Proof.
  split; [|by vm_compute].
  exists (ticker "ABCUSDT" 0.9),
    (Py.ValueError "suspiciously high funding rate").
  split; [set_solver|]. intros now. by vm_compute.
Qed.

(** C2: a Binance payload whose second entry is out of range, and a list
    sent where Bybit sends an object. *)
Lemma C2_witness :
  let fmt :=
    {| entries_member := None; symbol_member := "s";
       suffix1 := "USDT"; suffix2 := "USD"; rate_member := "r" |} in
  wire_format_of "binance" = Some fmt /\
  raising_entry no_text_rates fmt (ticker "ABCUSDT" 0.9) /\
  funding_updates no_text_rates "binance" (fun _ => 0%Z)
    (JList ([ticker "XYZUSDT" 0.001] ++ ticker "ABCUSDT" 0.9
              :: [ticker "QRSUSDT" 0.002]))
  = [sample_update (0.001 * 100)%float 0] /\
  (∀ items, ¬ carries "bybit" (JList [ticker "XYZUSDT" 0.001]) items) /\
  funding_updates no_text_rates "bybit" (fun _ => 0%Z)
    (JList [ticker "XYZUSDT" 0.001])
  = [].
Proof.
  intros fmt.
  assert (raising_entry no_text_rates fmt (ticker "ABCUSDT" 0.9)) as Hbad.
  { apply (rate_out_of_range no_text_rates fmt
             [("s", JStr "ABCUSDT"); ("r", JFloat 0.9)] "ABCUSDT" 0.9);
      reflexivity. }
  assert (∀ items, ¬ carries "bybit" (JList [ticker "XYZUSDT" 0.001]) items)
    as Hshape.
  { intros items (members & Hdata & _). discriminate Hdata. }
  split; [reflexivity|]. split; [exact Hbad|]. split; [|split].
  - rewrite (proj2 (parser_returns_updates_before_abort no_text_rates
                      "binance" (fun _ => 0%Z)
                      (JList ([ticker "XYZUSDT" 0.001]
                                ++ ticker "ABCUSDT" 0.9
                                :: [ticker "QRSUSDT" 0.002])))
               fmt [ticker "XYZUSDT" 0.001] (ticker "ABCUSDT" 0.9)
               [ticker "QRSUSDT" 0.002] (JList [ticker "XYZUSDT" 0.001])
               eq_refl eq_refl Hbad eq_refl).
    by vm_compute.
  - exact Hshape.
  - exact (proj1 (parser_returns_updates_before_abort no_text_rates
                    "bybit" (fun _ => 0%Z) (JList [ticker "XYZUSDT" 0.001]))
             Hshape).
Defined.

(** C3: the value 2 has magnitude at least 1, so the specification keeps
    it, and an update with the rate 2 would be built; the parser multiplies
    it by 100 all the same, and the constructor refuses the product. *)
Lemma C3_counterexample :
  extracted_rate no_text_rates "r" (ticker "XYZUSDT" 2) = Py.Ok 2%float /\
  (abs 2 <? 1)%float = false /\
  spec_scale 2 = 2%float /\
  __post_init__ "XYZ" (spec_scale 2) 0 "Binance" 0 = Py.Ok (sample_update 2 0) /\
  binance_item no_text_rates 0 (ticker "XYZUSDT" 2)
    = Abort (Py.ValueError "suspiciously high funding rate") /\
  parse_binance_data no_text_rates (fun _ => 0%Z) (JList [ticker "XYZUSDT" 2])
    = [].
Proof. repeat split; by vm_compute. Qed.

Lemma C3_witness :
  binance_item no_text_rates 0 (ticker "XYZUSDT" 0.001)
    = Append (sample_update (0.001 * 100)%float 0) /\
  ∃ x, extracted_rate no_text_rates "r" (ticker "XYZUSDT" 0.001) = Py.Ok x /\
       Py.float_nonzero x = true /\
       funding_rate (sample_update (0.001 * 100)%float 0) = (x * 100)%float.
Proof.
  split; [by vm_compute|].
  apply (rate_is_always_multiplied no_text_rates "s" "USDT" "USD" "r" "Binance"
           0 (ticker "XYZUSDT" 0.001)).
  by vm_compute.
Defined.

(** C5: the second update of [sample_monitor] was built with
    [change_percent = 0]; the filter, called on it 61 seconds after the
    prior, overwrites that field with 100. *)
Lemma C5_counterexample :
  let self := sample_monitor 61000000 in
  (change_percent <$> heap self !! 1) = Some 0%float /\
  (change_percent <$> heap (should_process_update 1 self).2 !! 1)
    = Some 100%float.
Proof. split; by vm_compute. Qed.

Lemma C5_witness :
  heap (sample_monitor 61000000) !! 1 = Some (sample_update 0.2 61000000) /\
  (∃ c, heap (should_process_update 1 (sample_monitor 61000000)).2 !! 1
          = Some (set_change_percent c (sample_update 0.2 61000000)) /\
        (1 ≠ 1 -> c = change_percent (sample_update 0.2 61000000))) /\
  (∀ message exchange0 clock,
     let self' :=
       process_websocket_message no_text_rates message exchange0 clock
         (sample_monitor 61000000) in
     heap self' !! 1 = Some (sample_update 0.2 61000000) /\
     length (heap self') =
       length (heap (sample_monitor 61000000)) +
       length (match message with
               | Some data => funding_updates no_text_rates exchange0 clock data
               | None => []
               end)).
Proof.
  split; [reflexivity|].
  apply (filter_writes_only_change_percent no_text_rates 1
           (sample_monitor 61000000) 1 (sample_update 0.2 61000000)).
  reflexivity.
Defined.

(** C7: for the rate 0.05 the annualized rate built is not 54.75. *)
Lemma C7_counterexample :
  __post_init__ "XYZ" 0.05 0 "Binance" 0 = Py.Ok (sample_update 0.05 0) /\
  (apr (sample_update 0.05 0) =? 54.75)%float = false /\
  (apr (sample_update 0.05 0) =? 54.75000000000001)%float = true.
Proof. repeat split; by vm_compute. Qed.

Lemma C7_witness :
  __post_init__ "XYZ" 0.05 0 "Binance" 0 = Py.Ok (sample_update 0.05 0) /\
  apr (sample_update 0.05 0) = (abs 0.05 * 3 * 365)%float /\
  apr (sample_update 0.05 0) = 54.75000000000001%float.
Proof.
  split; [reflexivity|].
  destruct (apr_is_derived_from_rate "XYZ" 0.05 "Binance" 0
              (sample_update 0.05 0) eq_refl) as [Hapr Hvalue].
  split; [exact Hapr|exact (Hvalue eq_refl)].
Defined.

(** C4: no capacity bounds the queue over the reachable states. *)
Lemma C4_counterexample :
  ¬ ∃ N, ∀ self,
      reachable no_text_rates self -> length (update_queue self) <= N.
Proof.
  intros [N Hbound].
  specialize (Hbound
    (process_websocket_message no_text_rates (Some (burst (S N))) "binance"
       (fun _ => 0%Z) (start_monitoring __init__))).
  rewrite burst_is_enqueued, length_seq in Hbound.
  assert (S N <= N) as Habsurd; [|lia].
  apply Hbound. eapply rtc_l; [apply step_message|apply rtc_refl].
Qed.

Lemma C6_witness :
  let self :=
    process_websocket_message no_text_rates (Some payload_a) "binance"
      (fun _ => 0%Z) (start_monitoring __init__) in
  reachable no_text_rates self /\
  heap self = [sample_update (0.001 * 100)%float 0] /\
  Forall within_range (heap self).
Proof.
  intros self.
  assert (reachable no_text_rates self) as Hreach.
  { eapply rtc_l; [|apply rtc_refl].
    apply (step_message no_text_rates (Some payload_a) "binance"
             (fun _ => 0%Z) (start_monitoring __init__)). }
  split; [exact Hreach|]. split; [by vm_compute|].
  exact (proj2 (corrupt_rate_never_reaches_filter no_text_rates) _ Hreach).
Defined.

Lemma C8_witness :
  let first := process_websocket_message no_text_rates (Some payload_a)
                 "binance" (fun _ => 0%Z) (start_monitoring __init__) in
  let second := process_websocket_message no_text_rates (Some payload_a)
                  "binance" (fun _ => 30000000%Z) first in
  update_queue first = [0] /\
  update_queue second = [0] /\
  total_updates second = 1 /\
  last_funding_data second = last_funding_data first /\
  last_funding_data first !! "XYZ_Binance" = Some 0 /\
  heap second = (heap first ++ [sample_update (0.001 * 100)%float 30000000])%list.
Proof.
  intros first second. split; [by vm_compute|].
  apply (same_payload_twice_within_a_minute no_text_rates "binance" payload_a
           (fun _ => 0%Z) (fun _ => 30000000%Z) (start_monitoring __init__)
           (sample_update (0.001 * 100)%float 0)).
  - by vm_compute.
  - by vm_compute.
  - by vm_compute.
Defined.

Lemma C9_witness :
  is_running (start_monitoring __init__) = true /\
  ∃ self',
    monitor_exchange no_text_rates "binance"
      (map ConnectRaises
         [false; true; false; false; true; false; false; false; true; false]
       ++ [Stream [] None])
      (start_monitoring __init__)
    = Returned true 10 self' /\
    "binance" ∉ connections self'.
Proof.
  split; [reflexivity|].
  apply (supervisor_fails_after_max_reconnects no_text_rates "binance"
           [false; true; false; false; true; false; false; false; true; false]
           [Stream [] None] (start_monitoring __init__)); reflexivity.
Defined.

Lemma C10_witness :
  last_funding_data (sample_monitor 0) !! "XYZ_Binance" = Some 0 /\
  heap (sample_monitor 0) !! 0 = Some (sample_update 0.1 0) /\
  last_funding_data (periodic_cleanup_turn 3600000000 (sample_monitor 0))
    !! "XYZ_Binance" = Some 0 /\
  last_funding_data (periodic_cleanup_turn 3600000001 (sample_monitor 0))
    !! "XYZ_Binance" = None.
Proof.
  split; [reflexivity|]. split; [reflexivity|]. split.
  - exact (sweep_removes_exactly_the_old 3600000000 (sample_monitor 0)
             "XYZ_Binance" 0 (sample_update 0.1 0) eq_refl eq_refl).
  - exact (sweep_removes_exactly_the_old 3600000001 (sample_monitor 0)
             "XYZ_Binance" 0 (sample_update 0.1 0) eq_refl eq_refl).
Defined.

(** The filter on numbers, at the second update of [sample_monitor]: its
    annualized rate is 219, a minute and a second have passed, and its
    change against the prior is 100 percent. *)
Lemma should_process_update_at_least_witness :
  heap (sample_monitor 61000000) !! 1 = Some (sample_update 0.2 61000000) /\
  is_nan (apr (sample_update 0.2 61000000)) = false /\
  (should_process_update 1 (sample_monitor 61000000)).1 = true.
Proof.
  split; [reflexivity|]. split; [reflexivity|].
  apply (should_process_update_at_least 1 (sample_monitor 61000000)
           (sample_update 0.2 61000000)); [reflexivity|reflexivity| |].
  - intros last last_update Hlast Hupdate.
    change (key_of (sample_update 0.2 61000000)) with "XYZ_Binance" in Hlast.
    unfold sample_monitor in Hlast. cbn [last_funding_data] in Hlast.
    rewrite lookup_singleton_eq in Hlast. injection Hlast as <-.
    injection Hupdate as <-. reflexivity.
  - split; [reflexivity|]. right.
    exists 0, (sample_update 0.1 0).
    split; [apply lookup_singleton_eq|].
    split; [reflexivity|]. split; [by vm_compute|reflexivity].
Defined.

(** The same update arriving after 59 seconds is refused and left
    unstamped, although its change is 100 percent. *)
Lemma time_gate_first_witness :
  (10 <=? change_of (sample_update 0.2 59000000) (sample_update 0.1 0))%float
    = true /\
  should_process_update 1 (sample_monitor 59000000)
    = (false, sample_monitor 59000000).
Proof.
  split; [reflexivity|].
  apply (time_gate_first 1 (sample_monitor 59000000)
           (sample_update 0.2 59000000) 0 (sample_update 0.1 0));
    [reflexivity|apply lookup_singleton_eq|reflexivity|by vm_compute].
Defined.

Lemma should_process_update_effect_witness :
  should_process_update 1 (sample_monitor 61000000)
    = (true, (should_process_update 1 (sample_monitor 61000000)).2) /\
  last_funding_data (should_process_update 1 (sample_monitor 61000000)).2
    = <["XYZ_Binance" := 1]> (last_funding_data (sample_monitor 61000000)) /\
  heap (should_process_update 1 (sample_monitor 61000000)).2 !! 1
    = Some (set_change_percent 100 (sample_update 0.2 61000000)).
Proof.
  assert (should_process_update 1 (sample_monitor 61000000)
          = (true, (should_process_update 1 (sample_monitor 61000000)).2))
    as Haccepted.
  { rewrite (should_process_update_change 1 (sample_monitor 61000000)
               (sample_update 0.2 61000000) 0 (sample_update 0.1 0));
      [reflexivity|reflexivity|reflexivity|apply lookup_singleton_eq
      |reflexivity|by vm_compute]. }
  split; [exact Haccepted|].
  destruct (should_process_update_effect 1 (sample_monitor 61000000) _
              (sample_update 0.2 61000000) eq_refl Haccepted) as [Htable Hheap].
  split; [exact Htable|exact Hheap].
Defined.

(** The scenario of the specification: five payloads for one instrument,
    five seconds apart, with rates 0.06, 0.061, 0.062, 0.09 and 0.20
    percent.  Only the first is enqueued: the later ones, the jumps of 45
    and 122 percent among them, arrive within a minute of it. *)
Example five_payloads_five_seconds_apart :
  let rates := [0.0006; 0.00061; 0.00062; 0.0009; 0.002]%float in
  let arrival (k : nat) (r : float) :=
    (Some (JList [ticker "XYZUSDT" r]), fun _ : nat => (Z.of_nat k * 5000000)%Z) in
  let self :=
    receive no_text_rates "binance" (imap arrival rates)
      (start_monitoring __init__) in
  update_queue self = [0] /\
  length (heap self) = 5 /\
  (apr <$> heap self !! 0) = Some 65.7%float.
Proof. repeat split; by vm_compute. Qed.

(** * Deduplication of collected opportunities *)

Lemma replace_first_symbols key opp l :
  symbol opp = key -> symbol <$> replace_first key opp l = symbol <$> l.
Proof.
  intros Hkey. induction l as [|e l IH]; [done|]. cbn.
  destruct (String.eqb_spec (symbol e) key) as [He|He]; cbn.
  - by rewrite Hkey, He.
  - by rewrite IH.
Qed.

Lemma elem_of_replace_first key opp l x :
  NoDup (symbol <$> l) ->
  x ∈ replace_first key opp l <->
  (x = opp /\ key ∈ symbol <$> l) \/ (x ∈ l /\ symbol x <> key).
Proof.
  induction l as [|e l IH]; intros Hnodup.
  - cbn. split; [by intros ?%elem_of_nil|].
    intros [[_ ?%elem_of_nil]|[?%elem_of_nil _]]; done.
  - cbn in Hnodup. apply NoDup_cons in Hnodup as [Hfresh Hnodup].
    specialize (IH Hnodup). cbn.
    destruct (String.eqb_spec (symbol e) key) as [He|He].
    + rewrite !elem_of_cons. split.
      * intros [->|Hx]; [left; split; [done|by left]|].
        right. split; [by right|]. intros Hsym.
        apply Hfresh. rewrite He, <- Hsym. by apply list_elem_of_fmap_2.
      * intros [[-> _]|[[->|Hx] Hsym]]; [by left|done|by right].
    + rewrite !elem_of_cons, IH. split.
      * intros [->|[[-> Hin]|[Hx Hsym]]].
        -- right. split; [by left|done].
        -- left. split; [done|by right].
        -- right. split; [by right|done].
      * intros [[-> [Hk|Hin]]|[[->|Hx] Hsym]].
        -- by destruct He.
        -- right. left. done.
        -- by left.
        -- right. right. done.
Qed.

Lemma remove_duplicates_turn_inv processed state opp :
  dedup_inv processed state ->
  dedup_inv (processed ++ [opp]) (remove_duplicates_turn state opp).
Proof.
  destruct state as [seen unique].
  intros (Hnodup & Hseen & Hsub & Hbest).
  unfold remove_duplicates_turn. cbn [fst snd] in *.
  destruct (seen !! symbol opp) as [existing|] eqn:Hkey.
  - apply Hseen in Hkey as Hexisting. destruct Hexisting as [Hin Hsym].
    assert (forall u, u ∈ unique -> symbol u = symbol opp -> u = existing)
      as Honly.
    { intros u Hu Hsu.
      assert (seen !! symbol opp = Some u) as Hlook by (by apply Hseen).
      congruence. }
    assert (symbol opp ∈ symbol <$> unique) as Hpresent.
    { rewrite <- Hsym. by apply list_elem_of_fmap_2. }
    destruct (Nat.ltb_spec (priority_of (exchange existing))
                           (priority_of (exchange opp))) as [Hlt|Hge].
    + assert (existsb (fun e => String.eqb (symbol e) (symbol opp)) unique
              = true) as ->.
      { apply existsb_exists. exists existing. split.
        - by apply list_elem_of_In.
        - by apply String.eqb_eq. }
      split; [|split; [|split]]; cbn [fst snd].
      * by rewrite replace_first_symbols.
      * intros key o. rewrite lookup_insert_Some.
        rewrite (elem_of_replace_first _ _ _ _ Hnodup). split.
        -- intros [[<- <-]|[Hne Hlook]].
           ++ split; [by left|done].
           ++ apply Hseen in Hlook as [Hin' Hsym'].
              split; [|done]. right. split; [done|congruence].
        -- intros [[[-> _]|[Hin' Hne]] Hsym'].
           ++ left. by split.
           ++ right. split; [congruence|]. by apply Hseen.
      * intros u Hu.
        apply (elem_of_replace_first _ _ _ _ Hnodup) in Hu as [[-> _]|[Hu _]].
        -- apply elem_of_app. right. by apply list_elem_of_singleton.
        -- apply elem_of_app. left. by apply Hsub.
      * intros v [Hv| ->%list_elem_of_singleton]%elem_of_app.
        -- destruct (Hbest v Hv) as (u & Hu & Hsu & Hle).
           destruct (decide (symbol u = symbol opp)) as [Heq|Hne].
           ++ exists opp. split; [|split].
              ** apply elem_of_replace_first; [done|]. by left.
              ** congruence.
              ** rewrite (Honly u Hu Heq) in Hle. lia.
           ++ exists u. split; [|done].
              apply elem_of_replace_first; [done|]. by right.
        -- exists opp. split; [|done].
           apply elem_of_replace_first; [done|]. by left.
    + split; [|split; [|split]]; cbn [fst snd]; [done..| |].
      * intros u Hu. apply elem_of_app. left. by apply Hsub.
      * intros v [Hv| ->%list_elem_of_singleton]%elem_of_app.
        -- by apply Hbest.
        -- by exists existing.
  - assert (forall u, u ∈ unique -> symbol u <> symbol opp) as Hfresh.
    { intros u Hu Hsu.
      assert (seen !! symbol opp = Some u) as Hlook by (by apply Hseen).
      congruence. }
    split; [|split; [|split]]; cbn [fst snd].
    + rewrite fmap_app. apply NoDup_app. split; [done|]. split.
      * intros s (u & -> & Hu)%list_elem_of_fmap Heq%list_elem_of_singleton.
        by apply (Hfresh u).
      * apply NoDup_singleton.
    + intros key o. rewrite lookup_insert_Some, elem_of_app,
        list_elem_of_singleton. split.
      * intros [[<- <-]|[Hne Hlook]].
        -- split; [by right|done].
        -- apply Hseen in Hlook as [Hin' Hsym']. split; [by left|done].
      * intros [[Hin'| ->] Hsym'].
        -- right. split; [|by apply Hseen].
           intros <-. by apply (Hfresh o).
        -- left. by split.
    + intros u [Hu| ->%list_elem_of_singleton]%elem_of_app.
      * apply elem_of_app. left. by apply Hsub.
      * apply elem_of_app. right. by apply list_elem_of_singleton.
    + intros v [Hv| ->%list_elem_of_singleton]%elem_of_app.
      * destruct (Hbest v Hv) as (u & Hu & Hsu & Hle).
        exists u. split; [|done]. apply elem_of_app. by left.
      * exists opp. split; [|done].
        apply elem_of_app. right. by apply list_elem_of_singleton.
Qed.

Lemma remove_duplicates_fold_inv l processed state :
  dedup_inv processed state ->
  dedup_inv (processed ++ l) (fold_left remove_duplicates_turn l state).
Proof.
  revert processed state. induction l as [|opp l IH]; intros processed state.
  - by rewrite app_nil_r.
  - intros Hinv. cbn [fold_left].
    replace (processed ++ opp :: l)%list with ((processed ++ [opp]) ++ l)%list
      by (by rewrite <- app_assoc).
    by apply IH, remove_duplicates_turn_inv.
Qed.

Lemma dedup_inv_empty : dedup_inv [] (∅, []).
Proof.
  split; [|split; [|split]]; cbn.
  - constructor.
  - intros key o. rewrite lookup_empty. split; [done|].
    by intros [?%elem_of_nil _].
  - done.
  - by intros v ?%elem_of_nil.
Qed.

(** [remove_duplicates] keeps one opportunity per symbol, taken from its
    input, and the one it keeps has the greatest priority among the
    opportunities of that symbol. *)
Theorem remove_duplicates_keeps_the_best_of_each_symbol l :
  NoDup (symbol <$> remove_duplicates l) /\
  (forall u, u ∈ remove_duplicates l -> u ∈ l) /\
  (forall v, v ∈ l ->
     exists u, u ∈ remove_duplicates l /\ symbol u = symbol v /\
               priority_of (exchange v) <= priority_of (exchange u)).
Proof.
  destruct (remove_duplicates_fold_inv l [] (∅, []) dedup_inv_empty)
    as (Hnodup & _ & Hsub & Hbest).
  by repeat split.
Qed.

Lemma remove_duplicates_fold_distinct l seen unique :
  NoDup (symbol <$> l) ->
  (forall u, u ∈ l -> seen !! symbol u = None) ->
  (fold_left remove_duplicates_turn l (seen, unique)).2 = (unique ++ l)%list.
Proof.
  revert seen unique. induction l as [|opp l IH]; intros seen unique.
  - intros _ _. cbn. by rewrite app_nil_r.
  - cbn [fmap list_fmap]. intros [Hfresh Hnodup]%NoDup_cons Hnew.
    cbn [fold_left]. unfold remove_duplicates_turn at 2. cbn [fst snd].
    rewrite (Hnew opp) by (by left).
    rewrite IH; [by rewrite <- app_assoc|done|].
    intros u Hu. rewrite lookup_insert_ne.
    + apply Hnew. by right.
    + intros Heq. apply Hfresh. rewrite Heq. by apply list_elem_of_fmap_2.
Qed.

Lemma remove_duplicates_distinct l :
  NoDup (symbol <$> l) -> remove_duplicates l = l.
Proof.
  intros Hnodup. unfold remove_duplicates.
  rewrite remove_duplicates_fold_distinct; [done..|].
  intros u _. apply lookup_empty.
Qed.

(** [remove_duplicates] is idempotent, and it returns unchanged a list in
    which no symbol comes twice. *)
Theorem remove_duplicates_is_idempotent l :
  remove_duplicates (remove_duplicates l) = remove_duplicates l /\
  (NoDup (symbol <$> l) -> remove_duplicates l = l).
Proof.
  split; [|apply remove_duplicates_distinct].
  apply remove_duplicates_distinct.
  by destruct (remove_duplicates_fold_inv l [] (∅, []) dedup_inv_empty)
    as (Hnodup & _).
Qed.

Lemma priority_of_coinglass_api name :
  priority_of ("CoinGlass-" ++ name) = 0.
Proof. reflexivity. Qed.

(** The CoinGlass API collector labels its opportunities
    [CoinGlass-<exchange>]; no such label is a key of [source_priority], so
    such an opportunity never replaces one already kept for its symbol. *)
Theorem coinglass_api_label_never_replaces name state opp :
  exchange opp = ("CoinGlass-" ++ name)%string ->
  is_Some (state.1 !! symbol opp) ->
  remove_duplicates_turn state opp = state.
Proof.
  intros Hlabel [existing Hseen]. unfold remove_duplicates_turn.
  rewrite Hseen, Hlabel, priority_of_coinglass_api.
  by destruct (priority_of (exchange existing)).
Qed.

(** * The further properties at concrete inputs *)

Lemma parser_output_is_well_built_witness :
  sample_update (0.001 * 100)%float 0
    ∈ funding_updates no_text_rates "binance" (fun _ => 0%Z) payload_a /\
  well_built (sample_update (0.001 * 100)%float 0) /\
  exchange (sample_update (0.001 * 100)%float 0) = exchange_label "binance".
Proof.
  assert (sample_update (0.001 * 100)%float 0
            ∈ funding_updates no_text_rates "binance" (fun _ => 0%Z) payload_a)
    as Hu by (vm_compute; constructor).
  split; [exact Hu|].
  exact (parser_output_is_well_built no_text_rates "binance" (fun _ => 0%Z)
           payload_a _ Hu).
Defined.

(** An entry for BTC, which is excluded, and an entry whose rate is
    zero, each between two entries that are kept. *)
Lemma skipped_entry_is_transparent_witness :
  in_TOP_50_COINS (Py.str_remove (Py.str_remove "BTCUSDT" "USDT") "USD")
    = true /\
  parse_items (binance_item no_text_rates) (fun _ => 0%Z) 0
    ([ticker "XYZUSDT" 0.001] ++ ticker "BTCUSDT" 0.001
       :: [ticker "QRSUSDT" 0.002])
  = parse_items (binance_item no_text_rates) (fun _ => 0%Z) 0
      ([ticker "XYZUSDT" 0.001] ++ [ticker "QRSUSDT" 0.002]) /\
  extracted_rate no_text_rates "r" (ticker "ABCUSDT" 0) = Py.Ok 0%float /\
  Py.float_nonzero 0 = false /\
  parse_items (binance_item no_text_rates) (fun _ => 0%Z) 0
    ([ticker "XYZUSDT" 0.001] ++ ticker "ABCUSDT" 0
       :: [ticker "QRSUSDT" 0.002])
  = parse_items (binance_item no_text_rates) (fun _ => 0%Z) 0
      ([ticker "XYZUSDT" 0.001] ++ [ticker "QRSUSDT" 0.002]).
Proof.
  split; [reflexivity|]. split; [|split; [reflexivity|split; [reflexivity|]]].
  - exact (skipped_entry_is_transparent no_text_rates "s" "USDT" "USD" "r"
             "Binance" (fun _ => 0%Z) 0 [ticker "XYZUSDT" 0.001]
             [("s", JStr "BTCUSDT"); ("r", JFloat 0.001)]
             [ticker "QRSUSDT" 0.002] "BTCUSDT" eq_refl
             (or_introl eq_refl)).
  - exact (skipped_entry_is_transparent no_text_rates "s" "USDT" "USD" "r"
             "Binance" (fun _ => 0%Z) 0 [ticker "XYZUSDT" 0.001]
             [("s", JStr "ABCUSDT"); ("r", JFloat 0)]
             [ticker "QRSUSDT" 0.002] "ABCUSDT" eq_refl
             (or_intror (ex_intro _ 0%float (conj eq_refl eq_refl)))).
Defined.

(** Two updates of one instrument on one exchange, at different times and
    with different rates, share their key. *)
Lemma filter_key_is_symbol_and_exchange_witness :
  key_of (sample_update (0.001 * 100)%float 0)
    = key_of (sample_update (0.002 * 100)%float 5) /\
  symbol (sample_update (0.001 * 100)%float 0)
    = symbol (sample_update (0.002 * 100)%float 5) /\
  exchange (sample_update (0.001 * 100)%float 0)
    = exchange (sample_update (0.002 * 100)%float 5).
Proof.
  split; [reflexivity|].
  apply (filter_key_is_symbol_and_exchange no_text_rates "binance" "binance"
           (fun _ => 0%Z) (fun _ => 5%Z) payload_a
           (JList [ticker "XYZUSDT" 0.002])).
  - vm_compute. constructor.
  - vm_compute. constructor.
  - reflexivity.
Defined.

(** The monitor after one message, and after the consumer has taken the
    update and alerted on it. *)
Lemma table_and_queue_are_sound_witness :
  let self :=
    process_websocket_message no_text_rates (Some payload_a) "binance"
      (fun _ => 0%Z) (start_monitoring __init__) in
  reachable_alerting no_text_rates self /\
  table_sound self /\ queue_sound self.
Proof.
  intros self.
  assert (reachable_alerting no_text_rates self) as Hreach
    by (apply rtc_once; constructor).
  split; [exact Hreach|].
  exact (table_and_queue_are_sound no_text_rates self Hreach).
Defined.

(** A first message, followed to the point where its update is in the
    queue and not counted yet: here the queue holds one update more than
    the counter says. *)
Lemma statistics_are_consistent_witness :
  let self1 :=
    with_heap [sample_update (0.001 * 100)%float 0]
      (start_monitoring __init__) in
  let self2 :=
    with_last_funding_data
      (<["XYZ_Binance" := 0]> (last_funding_data self1)) self1 in
  let self3 := with_update_queue (update_queue self2 ++ [0]) self2 in
  let a := with_ingesting (Counting []) idle in
  reachable_micro no_text_rates (self3, a) /\
  length (update_queue self3) = 1 /\
  total_updates self3 = 0 /\
  alerts_sent self3 + in_hand (consuming a) + length (update_queue self3)
    <= total_updates self3 + queued_uncounted (ingesting a) /\
  size (last_funding_data self3)
    <= total_updates self3 + accepted_uncounted (ingesting a).
Proof.
  intros self1 self2 self3 a.
  assert (reachable_micro no_text_rates (self3, a)) as Hreach.
  { eapply rtc_l;
      [exact (micro_message no_text_rates payload_a "binance" (fun _ => 0%Z)
                (start_monitoring __init__) idle eq_refl)|].
    eapply rtc_l;
      [exact (micro_accepted no_text_rates 0 [] self1 self2
                (with_ingesting (Filtering [0]) idle) eq_refl
                (should_process_update_first 0 self1
                   (sample_update (0.001 * 100)%float 0)
                   eq_refl eq_refl eq_refl))|].
    apply rtc_once.
    exact (micro_put no_text_rates 0 [] self2
             (with_ingesting (Putting 0 []) idle) eq_refl). }
  split; [exact Hreach|]. split; [reflexivity|]. split; [reflexivity|].
  exact (statistics_are_consistent no_text_rates self3 a Hreach).
Defined.

Lemma supervisor_gives_up_only_after_enough_failures_witness :
  ∃ self',
    monitor_exchange no_text_rates "binance"
      (map ConnectRaises (replicate 10 false)) (start_monitoring __init__)
    = Returned true 10 self' /\
    ("binance" ∉ connections self') /\
    10 <= failures (map ConnectRaises (replicate 10 false)).
Proof.
  destruct (monitor_loop_exhausts no_text_rates "binance" (replicate 10 false)
              [] 0 0 (start_monitoring __init__) eq_refl eq_refl)
    as (self' & Hrun & _).
  rewrite app_nil_r in Hrun.
  exists self'. split; [exact Hrun|].
  destruct (supervisor_gives_up_only_after_enough_failures no_text_rates
              "binance" _ _ _ _ _ Hrun) as [Hout Hfailed].
  split; [exact Hout|]. exact (proj2 (Hfailed eq_refl)).
Defined.

(** Two failed attempts, a stream that is lost, nine failed attempts: the
    supervisor gives up at the twelfth attempt, not at the tenth.  With a
    stream that ends by itself it takes ten more. *)
Lemma successful_connection_resets_the_count_witness :
  (∃ self',
     monitor_exchange no_text_rates "binance"
       (map ConnectRaises [false; true]
          ++ Stream [(Some payload_a, fun _ => 0%Z)] (Some true)
          :: map ConnectRaises (replicate 9 false) ++ [Stream [] None])
       (start_monitoring __init__)
     = Returned true (2 + 1 + 9) self' /\
     "binance" ∉ connections self') /\
  (∃ self',
     monitor_exchange no_text_rates "binance"
       (map ConnectRaises [false; true]
          ++ Stream [(Some payload_a, fun _ => 0%Z)] None
          :: map ConnectRaises (replicate 10 false) ++ [Stream [] None])
       (start_monitoring __init__)
     = Returned true (2 + 1 + 10) self' /\
     "binance" ∉ connections self').
Proof.
  split.
  - apply (successful_connection_resets_the_count no_text_rates "binance"
             [false; true] [(Some payload_a, fun _ => 0%Z)] (Some true)
             (replicate 9 false) [Stream [] None]
             (start_monitoring __init__)); [reflexivity|cbn; lia|reflexivity].
  - apply (successful_connection_resets_the_count no_text_rates "binance"
             [false; true] [(Some payload_a, fun _ => 0%Z)] None
             (replicate 10 false) [Stream [] None]
             (start_monitoring __init__)); [reflexivity|cbn; lia|reflexivity].
Defined.


(** An update that repeats the rate of its prior is refused while the
    prior is in the table, and accepted once the sweep has removed it. *)
Lemma eviction_resets_the_filter_witness :
  let self :=
    with_heap [sample_update 0.1 0; sample_update 0.1 3600000002]
      (sample_monitor 0) in
  (should_process_update 1 self).1 = false /\
  should_process_update 1 (periodic_cleanup_turn 3600000001 self)
  = (true, with_last_funding_data
             (<["XYZ_Binance" := 1]>
                (last_funding_data (periodic_cleanup_turn 3600000001 self)))
             (periodic_cleanup_turn 3600000001 self)).
Proof.
  intros self. split.
  - rewrite (should_process_update_change 1 self
               (sample_update 0.1 3600000002) 0 (sample_update 0.1 0));
      [reflexivity|reflexivity|reflexivity|apply lookup_singleton_eq
      |reflexivity|by vm_compute].
  - exact (eviction_resets_the_filter 3600000001 self 1
             (sample_update 0.1 3600000002) 0 (sample_update 0.1 0)
             eq_refl eq_refl (lookup_singleton_eq _ _) eq_refl eq_refl).
Defined.

Lemma sweeps_compose_witness :
  periodic_cleanup_turn 3600000001
    (periodic_cleanup_turn 1800000000 (sample_monitor 0))
  = periodic_cleanup_turn 3600000001 (sample_monitor 0).
Proof.
  apply (sweeps_compose 1800000000 3600000001 (sample_monitor 0)).
  by vm_compute.
Defined.

Lemma coinglass_api_label_never_replaces_witness :
  let kept := sample_update 0.1 0 in
  let opp :=
    {| symbol := "XYZ"; funding_rate := 0.2; apr := 219;
       exchange := "CoinGlass-Binance"; timestamp := 5;
       change_percent := 0 |} in
  remove_duplicates_turn ({[ "XYZ" := kept ]}, [kept]) opp
  = ({[ "XYZ" := kept ]}, [kept]).
Proof.
  intros kept opp.
  apply (coinglass_api_label_never_replaces "Binance"
           ({[ "XYZ" := kept ]}, [kept]) opp eq_refl).
  exists kept. apply lookup_singleton_eq.
Defined.
